(** * FlowBuilder: the graph-editing core of the chatbot flow builder

    A shallow embedding of [FlowBuilder.jsx]: the connection handler, the
    undo/redo history, node removal, the text-change handler and the save-time
    validation, together with the properties the specification states about
    them.

    Conventions of the embedding.
    - React state ([nodes], [edges], [selectedNode]) and the three refs
      ([historyRef], [historyIndexRef], [isUndoRedoAction]) are the fields of
      one record, threaded explicitly through every handler.
    - [toast.warn] / [toast.error] / [toast.success] append to a log.
    - The two ref-held indices only ever hold results of [length - 1] of a
      non-empty array, or such a value plus or minus one under a guard, so
      they are natural numbers; [index <= 0] and [index >= length - 1] are
      kept as written.
    - An array read out of range gives [undefined] in JavaScript and reading a
      property of it raises; handlers that index the history therefore return
      an [option], [None] standing for the raised [TypeError]. *)

From stdpp Require Import base numbers strings pretty list gmap.

(** ** Data model *)

Module XYPosition.
(** Canvas coordinates; no handler of the core reads them. *)
Record t := mk { x : Z; y : Z }.
End XYPosition.

Module NodeData.
Record t := mk { label : string }.
End NodeData.

Module Node.
Record t := mk {
  id : string;
  type : string;
  position : XYPosition.t;
  data : NodeData.t;
}.
End Node.

(** A handle is a string or [null]. *)
Definition Handle := option string.

Module Connection.
(** The argument of [onConnect]. *)
Record t := mk {
  source : string;
  sourceHandle : Handle;
  target : string;
  targetHandle : Handle;
}.
End Connection.

Module Style.
Record t := mk { strokeWidth : Z }.
End Style.

Module Edge.
Record t := mk {
  id : string;
  source : string;
  sourceHandle : Handle;
  target : string;
  targetHandle : Handle;
  animated : bool;
  style : option Style.t;
}.
End Edge.

Module NodeChange.
(** One entry of the change list handed to [onNodesChange]. *)
Record t := mk { type : string; id : string }.
End NodeChange.

Module Snapshot.
(** One entry of [historyRef.current]. *)
Record t := mk { nodes : list Node.t; edges : list Edge.t }.
End Snapshot.

Module Toast.
Inductive severity := warn | error | success.
Record t := mk {
  level : severity;
  message : string;
  position : string;
  autoClose : Z;
}.
End Toast.

(** The state of the [FlowBuilder] component. *)
Record FlowBuilder := mkFlowBuilder {
  nodes : list Node.t;
  edges : list Edge.t;
  selectedNode : option Node.t;
  historyRef : list Snapshot.t;
  historyIndexRef : nat;
  isUndoRedoAction : bool;
  toasts : list Toast.t;
}.

(** [JSON.parse(JSON.stringify(v))]: a structurally equal, unshared copy.
    Values of the embedding carry no identity, so the copy is the value. *)
Definition jsonClone {A : Type} (v : A) : A := v.

Definition MAX_HISTORY : nat := 50.

(** The state after the first render: [useNodesState([])],
    [useEdgesState([])], [useState(null)], [useRef([{nodes: [], edges: []}])],
    [useRef(0)], [useRef(false)]. *)
Definition initial : FlowBuilder :=
  {| nodes := []; edges := []; selectedNode := None;
     historyRef := [Snapshot.mk [] []];
     historyIndexRef := 0;
     isUndoRedoAction := false;
     toasts := [] |}.

(** ** Undo/redo history *)

Definition pushHistory (newNodes : list Node.t) (newEdges : list Edge.t)
    (s : FlowBuilder) : FlowBuilder :=
  if isUndoRedoAction s then
    {| nodes := nodes s; edges := edges s; selectedNode := selectedNode s;
       historyRef := historyRef s; historyIndexRef := historyIndexRef s;
       isUndoRedoAction := false; toasts := toasts s |}
  else
    let current := historyIndexRef s in
    let pushed :=
      take (current + 1) (historyRef s)
        ++ [Snapshot.mk (jsonClone newNodes) (jsonClone newEdges)] in
    let newHistory :=
      if decide (MAX_HISTORY < length pushed) then drop 1 pushed else pushed in
    {| nodes := nodes s; edges := edges s; selectedNode := selectedNode s;
       historyRef := newHistory;
       historyIndexRef := length newHistory - 1;
       isUndoRedoAction := false; toasts := toasts s |}.

(** The tail shared by [undo] and [redo]: the guard is set, the cursor moved
    to [i], and the live graph replaced by a copy of the snapshot read at
    [i]; the selection is cleared. *)
Definition replaceWith (i : nat) (s : FlowBuilder) : option FlowBuilder :=
  state ← historyRef s !! i;
  Some {| nodes := jsonClone (Snapshot.nodes state);
          edges := jsonClone (Snapshot.edges state);
          selectedNode := None;
          historyRef := historyRef s;
          historyIndexRef := i;
          isUndoRedoAction := true;
          toasts := toasts s |}.

Definition undo (s : FlowBuilder) : option FlowBuilder :=
  let index := historyIndexRef s in
  if decide (index ≤ 0) then Some s
  else replaceWith (index - 1) s.

(** The test [index >= length - 1] is written [length - 1 ≤ index]. *)
Definition redo (s : FlowBuilder) : option FlowBuilder :=
  let index := historyIndexRef s in
  if decide (length (historyRef s) - 1 ≤ index) then Some s
  else replaceWith (index + 1) s.

(** The operations of the history engine, and their effect on the state. *)
Inductive HistoryOp :=
| Commit (newNodes : list Node.t) (newEdges : list Edge.t)
| Undo
| Redo.

Definition step (op : HistoryOp) (s : FlowBuilder) : option FlowBuilder :=
  match op with
  | Commit newNodes newEdges => Some (pushHistory newNodes newEdges s)
  | Undo => undo s
  | Redo => redo s
  end.

Fixpoint run (ops : list HistoryOp) (s : FlowBuilder) : option FlowBuilder :=
  match ops with
  | [] => Some s
  | op :: rest => s' ← step op s; run rest s'
  end.

(** [undo()] called [k] times in a row. *)
Fixpoint undoTimes (k : nat) (s : FlowBuilder) : option FlowBuilder :=
  match k with
  | 0 => Some s
  | S k' => s' ← undo s; undoTimes k' s'
  end.

(** The snapshot the cursor points at. *)
Definition current (s : FlowBuilder) : option Snapshot.t :=
  historyRef s !! historyIndexRef s.

(** The invariant of the history: [0 ≤ cursor < length ≤ MAX_HISTORY]. *)
Definition history_inv (s : FlowBuilder) : Prop :=
  0 ≤ historyIndexRef s ∧
  historyIndexRef s < length (historyRef s) ∧
  length (historyRef s) ≤ MAX_HISTORY.

(** ** State setters and the notification sink *)

Definition setNodes (v : list Node.t) (s : FlowBuilder) : FlowBuilder :=
  {| nodes := v; edges := edges s; selectedNode := selectedNode s;
     historyRef := historyRef s; historyIndexRef := historyIndexRef s;
     isUndoRedoAction := isUndoRedoAction s; toasts := toasts s |}.

Definition setEdges (v : list Edge.t) (s : FlowBuilder) : FlowBuilder :=
  {| nodes := nodes s; edges := v; selectedNode := selectedNode s;
     historyRef := historyRef s; historyIndexRef := historyIndexRef s;
     isUndoRedoAction := isUndoRedoAction s; toasts := toasts s |}.

Definition setSelectedNode (v : option Node.t) (s : FlowBuilder) : FlowBuilder :=
  {| nodes := nodes s; edges := edges s; selectedNode := v;
     historyRef := historyRef s; historyIndexRef := historyIndexRef s;
     isUndoRedoAction := isUndoRedoAction s; toasts := toasts s |}.

Definition toast (t : Toast.t) (s : FlowBuilder) : FlowBuilder :=
  {| nodes := nodes s; edges := edges s; selectedNode := selectedNode s;
     historyRef := historyRef s; historyIndexRef := historyIndexRef s;
     isUndoRedoAction := isUndoRedoAction s; toasts := toasts s ++ [t] |}.

(** ** Connection handler *)

(** [edges.some((edge) => edge.source === params.source &&
    edge.sourceHandle === params.sourceHandle)] *)
Definition sourceHasEdge (params : Connection.t) (edges : list Edge.t) : bool :=
  bool_decide
    (Exists (λ edge, Edge.source edge = Connection.source params ∧
                     Edge.sourceHandle edge = Connection.sourceHandle params)
            edges).

Definition duplicateWarning : Toast.t :=
  Toast.mk Toast.warn "A source handle can only have one outgoing edge."
           "top-center" 2500.

(** Modelled from the spec: [addEdge] is imported from the canvas library and
    is not part of the sources; the specification's Graph Store describes it
    as "appends without policy checks". *)
Definition addEdge (edge : Edge.t) (edges : list Edge.t) : list Edge.t :=
  edges ++ [edge].

(** ** Node removal *)

Definition isRemove (c : NodeChange.t) : Prop :=
  NodeChange.type c = "remove"%string.

#[local] Instance isRemove_dec c : Decision (isRemove c).
Proof. unfold isRemove. apply _. Defined.

(** [changes.filter((c) => c.type === 'remove').map((c) => c.id)] *)
Definition removedIds (changes : list NodeChange.t) : list string :=
  NodeChange.id <$> (filter isRemove changes).

(** [nodes.filter((n) => !removedIds.includes(n.id))] *)
Definition remainingNodes (ids : list string) (nodes : list Node.t)
    : list Node.t :=
  filter (λ n, Node.id n ∉ ids) nodes.

(** [edges.filter((e) => !removedIds.includes(e.source) &&
    !removedIds.includes(e.target))] *)
Definition remainingEdges (ids : list string) (edges : list Edge.t)
    : list Edge.t :=
  filter (λ e, (Edge.source e ∉ ids) ∧ (Edge.target e ∉ ids)) edges.

Section Canvas.
(** What the canvas library supplies: the identifier it gives the edge of a
    new connection, and the change applier behind [onNodesChange]. *)
Variable getEdgeId : Connection.t → string.
Variable applyNodeChanges : list NodeChange.t → list Node.t → list Node.t.

(** [{ ...params, animated: true, style: { strokeWidth: 2 } }], with the
    identifier the library attaches to it. *)
Definition styledEdge (params : Connection.t) : Edge.t :=
  {| Edge.id := getEdgeId params;
     Edge.source := Connection.source params;
     Edge.sourceHandle := Connection.sourceHandle params;
     Edge.target := Connection.target params;
     Edge.targetHandle := Connection.targetHandle params;
     Edge.animated := true;
     Edge.style := Some (Style.mk 2) |}.

Definition onConnect (params : Connection.t) (s : FlowBuilder) : FlowBuilder :=
  if sourceHasEdge params (edges s) then toast duplicateWarning s
  else
    let newEdges := addEdge (styledEdge params) (edges s) in
    pushHistory (nodes s) newEdges (setEdges newEdges s).

Definition handleNodesChange (changes : list NodeChange.t) (s : FlowBuilder)
    : FlowBuilder :=
  let s1 := setNodes (applyNodeChanges changes (nodes s)) s in
  let hasRemoval := bool_decide (Exists isRemove changes) in
  if hasRemoval then
    let ids := removedIds changes in
    let s2 :=
      pushHistory (remainingNodes ids (nodes s))
                  (remainingEdges ids (edges s)) s1 in
    match selectedNode s with
    | Some sel =>
        if bool_decide (Node.id sel ∈ ids) then setSelectedNode None s2
        else s2
    | None => s2
    end
  else s1.
End Canvas.

(** ** Text change *)

(** [node.id === selectedNode?.id]: with no selection the right-hand side is
    [undefined], which no node id equals. *)
Definition isSelected (selected : option Node.t) (node : Node.t) : Prop :=
  Some (Node.id node) = Node.id <$> selected.

#[local] Instance isSelected_dec selected node : Decision (isSelected selected node).
Proof. unfold isSelected. apply _. Defined.

(** [{ ...node, data: { ...node.data, label: newText } }] *)
Definition withLabel (newText : string) (node : Node.t) : Node.t :=
  {| Node.id := Node.id node;
     Node.type := Node.type node;
     Node.position := Node.position node;
     Node.data := {| NodeData.label := newText |} |}.

(** The updater passed to [setNodes]: [nds.map(...)]. *)
Definition updateNodes (selected : option Node.t) (newText : string)
    (nds : list Node.t) : list Node.t :=
  (λ node, if decide (isSelected selected node) then withLabel newText node
           else node) <$> nds.

Definition onTextChange (newText : string) (s : FlowBuilder) : FlowBuilder :=
  let updated := updateNodes (selectedNode s) newText (nodes s) in
  let updatedSelected := list_find (isSelected (selectedNode s)) updated in
  let s1 :=
    match updatedSelected with
    | Some (_, n) => setSelectedNode (Some n) s
    | None => s
    end in
  setNodes updated s1.

(** ** Save and validation *)

Definition EmptyFlow : Toast.t :=
  Toast.mk Toast.error "Cannot save an empty flow. Add some nodes first!"
           "top-center" 3000.

Definition MultipleEntryPoints : Toast.t :=
  Toast.mk Toast.error
    "Flow validation failed! More than one node has an empty target handle. Please connect all nodes."
    "top-center" 4000.

Definition Success : Toast.t :=
  Toast.mk Toast.success "Flow saved successfully!" "top-center" 3000.

(** [new Set(edges.map((edge) => edge.target))] *)
Definition nodesWithIncomingEdge (edges : list Edge.t) : gset string :=
  list_to_set (Edge.target <$> edges).

(** [nodes.filter((node) => !nodesWithIncomingEdge.has(node.id))] *)
Definition nodesWithEmptyTarget (nodes : list Node.t) (edges : list Edge.t)
    : list Node.t :=
  filter (λ node, Node.id node ∉ nodesWithIncomingEdge edges) nodes.

(** The notification [onSave] raises, by the branch taken. *)
Definition validate (nodes : list Node.t) (edges : list Edge.t) : Toast.t :=
  if decide (length nodes = 0) then EmptyFlow
  else if decide (1 < length (nodesWithEmptyTarget nodes edges))
       then MultipleEntryPoints
       else Success.

Definition onSave (s : FlowBuilder) : FlowBuilder :=
  toast (validate (nodes s) (edges s)) s.

(** The nodes no edge points at, in the words of the specification: the
    complement, within [nodes], of the ids that are the target of an edge. *)
Definition unreached (nodes : list Node.t) (edges : list Edge.t) : list Node.t :=
  filter (λ n, Node.id n ∉ (Edge.target <$> edges)) nodes.

(** The operations that commit the snapshots of [snaps], oldest first. *)
Definition commits (snaps : list Snapshot.t) : list HistoryOp :=
  (λ sn, Commit (Snapshot.nodes sn) (Snapshot.edges sn)) <$> snaps.

Definition isCommit (op : HistoryOp) : bool :=
  match op with Commit _ _ => true | _ => false end.

(** How many of [ops] are commits. *)
Definition commitCount (ops : list HistoryOp) : nat :=
  length (filter (λ op, isCommit op = true) ops).

(** The live graph, as a snapshot. *)
Definition live (s : FlowBuilder) : Snapshot.t :=
  Snapshot.mk (nodes s) (edges s).

Definition emptyGraph : Snapshot.t := Snapshot.mk [] [].

(** ** Edge removal *)

Module EdgeChange.
(** One entry of the change list handed to [onEdgesChange]. *)
Record t := mk { type : string; id : string }.
End EdgeChange.

Definition isRemoveEdge (c : EdgeChange.t) : Prop :=
  EdgeChange.type c = "remove"%string.

#[local] Instance isRemoveEdge_dec c : Decision (isRemoveEdge c).
Proof. unfold isRemoveEdge. apply _. Defined.

(** [changes.filter((c) => c.type === 'remove').map((c) => c.id)] *)
Definition removedEdgeIds (changes : list EdgeChange.t) : list string :=
  EdgeChange.id <$> (filter isRemoveEdge changes).

(** [edges.filter((e) => !removedIds.includes(e.id))] *)
Definition edgesNotRemoved (ids : list string) (edges : list Edge.t)
    : list Edge.t :=
  filter (λ e, Edge.id e ∉ ids) edges.

(** ** Drag and drop *)

Module DataTransfer.
(** The drag payload: the data set per format, and the two effect fields. *)
Record t := mk {
  data : gmap string string;
  effectAllowed : string;
  dropEffect : string;
}.
(** [getData(format)]: the empty string when nothing was set. *)
Definition getData (format : string) (dt : t) : string :=
  default ""%string (data dt !! format).
(** [setData(format, value)] *)
Definition setData (format value : string) (dt : t) : t :=
  {| data := <[format := value]> (data dt);
     effectAllowed := effectAllowed dt;
     dropEffect := dropEffect dt |}.
End DataTransfer.

Module DragEvent.
Record t := mk { dataTransfer : DataTransfer.t; clientX : Z; clientY : Z }.
End DragEvent.

Module NodeType.
(** One entry of the palette registry [NODE_TYPES] (the icon is left out). *)
Record t := mk { type : string; label : string; description : string }.
End NodeType.

Definition NODE_TYPES : list NodeType.t :=
  [NodeType.mk "textNode" "Message" "Send a text message"].

(** The keys of [nodeTypes], the registry handed to the canvas. *)
Definition nodeTypes : list string := ["textNode"%string].

(** [onDragStart] of the palette: the node type becomes the payload. *)
Definition onDragStart (nodeType : string) (event : DragEvent.t) : DragEvent.t :=
  let dt := DataTransfer.setData "application/reactflow" nodeType
              (DragEvent.dataTransfer event) in
  {| DragEvent.dataTransfer :=
       {| DataTransfer.data := DataTransfer.data dt;
          DataTransfer.effectAllowed := "move";
          DataTransfer.dropEffect := DataTransfer.dropEffect dt |};
     DragEvent.clientX := DragEvent.clientX event;
     DragEvent.clientY := DragEvent.clientY event |}.

(** The node [onDrop] builds: [uuidv4()] is the identifier drawn for it and
    [position] the drop point in flow coordinates. *)
Definition droppedNode (uuidv4 nodeType : string) (position : XYPosition.t)
    (nodes : list Node.t) : Node.t :=
  {| Node.id := uuidv4;
     Node.type := nodeType;
     Node.position := position;
     Node.data :=
       {| NodeData.label := "test message " +:+ pretty (length nodes + 1) |} |}.

(** [reactFlowInstance.current] is [null] until the canvas has initialised,
    and then offers [screenToFlowPosition]. *)
Definition onDrop (reactFlowInstance : option (Z → Z → XYPosition.t))
    (uuidv4 : string) (event : DragEvent.t) (s : FlowBuilder) : FlowBuilder :=
  let nodeType :=
    DataTransfer.getData "application/reactflow" (DragEvent.dataTransfer event) in
  if decide (nodeType = ""%string) then s
  else
    match reactFlowInstance with
    | None => s
    | Some screenToFlowPosition =>
        let position :=
          screenToFlowPosition (DragEvent.clientX event)
                               (DragEvent.clientY event) in
        let newNode := droppedNode uuidv4 nodeType position (nodes s) in
        let newNodes := nodes s ++ [newNode] in
        pushHistory newNodes (edges s) (setNodes newNodes s)
    end.

(** ** Selection *)

Definition onNodeClick (node : Node.t) (s : FlowBuilder) : FlowBuilder :=
  setSelectedNode (Some node) s.

Definition onPaneClick (s : FlowBuilder) : FlowBuilder :=
  setSelectedNode None s.

Definition onDeselectNode (s : FlowBuilder) : FlowBuilder :=
  setSelectedNode None s.

(** ** Keyboard shortcuts *)

Module KeyboardEvent.
(** [inTextarea] is [event.target.closest('textarea')] being non-null. *)
Record t := mk {
  ctrlKey : bool;
  shiftKey : bool;
  key : string;
  inTextarea : bool;
}.
End KeyboardEvent.

(** [handleKeyDown]: the result pairs whether [event.preventDefault()] was
    called with the new state. *)
Definition handleKeyDown (event : KeyboardEvent.t) (s : FlowBuilder)
    : option (bool * FlowBuilder) :=
  '(prevented, s1) ←
    (if KeyboardEvent.ctrlKey event
        && bool_decide (KeyboardEvent.key event = "z"%string)
        && negb (KeyboardEvent.inTextarea event)
     then s' ← undo s; Some (true, s')
     else Some (false, s));
  if (KeyboardEvent.ctrlKey event
        && bool_decide (KeyboardEvent.key event = "y"%string))
     || (KeyboardEvent.ctrlKey event && KeyboardEvent.shiftKey event
           && bool_decide (KeyboardEvent.key event = "Z"%string))
  then
    if negb (KeyboardEvent.inTextarea event)
    then s' ← redo s1; Some (true, s')
    else Some (prevented, s1)
  else Some (prevented, s1).

(** ** What the side bar and the node card show *)

Inductive Panel :=
| SettingsPanel (textareaValue : string)
| NodesPanel (cards : list NodeType.t).

(** [a || b] on strings: the empty string is the only falsy one. *)
Definition orElse (a b : string) : string :=
  if decide (a = ""%string) then b else a.

(** [Sidebar]: the settings panel when a node is selected, with
    [selectedNode?.data?.label || ''] in its text area; the palette
    otherwise. *)
Definition Sidebar (selectedNode : option Node.t) : Panel :=
  match selectedNode with
  | Some node => SettingsPanel (orElse (NodeData.label (Node.data node)) "")
  | None => NodesPanel NODE_TYPES
  end.

(** The body of a [TextNode] card: [data.label || 'Type your message...']. *)
Definition textNodeBody (data : NodeData.t) : string :=
  orElse (NodeData.label data) "Type your message...".

(** ** The component as an event machine *)

Inductive Event :=
| ConnectEvent (params : Connection.t)
| DropEvent (reactFlowInstance : option (Z → Z → XYPosition.t))
            (uuidv4 : string) (event : DragEvent.t)
| NodesChangeEvent (changes : list NodeChange.t)
| EdgesChangeEvent (changes : list EdgeChange.t)
| NodeClickEvent (node : Node.t)
| PaneClickEvent
| TextChangeEvent (newText : string)
| DeselectEvent
| SaveEvent
| KeyDownEvent (event : KeyboardEvent.t).

Section CanvasEvents.
Variable getEdgeId : Connection.t → string.
Variable applyNodeChanges : list NodeChange.t → list Node.t → list Node.t.
(** The change applier behind [onEdgesChange]. *)
Variable applyEdgeChanges : list EdgeChange.t → list Edge.t → list Edge.t.

Definition handleEdgesChange (changes : list EdgeChange.t) (s : FlowBuilder)
    : FlowBuilder :=
  let s1 := setEdges (applyEdgeChanges changes (edges s)) s in
  let hasRemoval := bool_decide (Exists isRemoveEdge changes) in
  if hasRemoval then
    let ids := removedEdgeIds changes in
    pushHistory (nodes s) (edgesNotRemoved ids (edges s)) s1
  else s1.

Definition dispatch (e : Event) (s : FlowBuilder) : option FlowBuilder :=
  match e with
  | ConnectEvent params => Some (onConnect getEdgeId params s)
  | DropEvent instance uuidv4 event => Some (onDrop instance uuidv4 event s)
  | NodesChangeEvent changes => Some (handleNodesChange applyNodeChanges changes s)
  | EdgesChangeEvent changes => Some (handleEdgesChange changes s)
  | NodeClickEvent node => Some (onNodeClick node s)
  | PaneClickEvent => Some (onPaneClick s)
  | TextChangeEvent newText => Some (onTextChange newText s)
  | DeselectEvent => Some (onDeselectNode s)
  | SaveEvent => Some (onSave s)
  | KeyDownEvent event => snd <$> handleKeyDown event s
  end.

Fixpoint runEvents (es : list Event) (s : FlowBuilder) : option FlowBuilder :=
  match es with
  | [] => Some s
  | e :: rest => s' ← dispatch e s; runEvents rest s'
  end.
End CanvasEvents.

(** [redo()] called [k] times in a row. *)
Fixpoint redoTimes (k : nat) (s : FlowBuilder) : option FlowBuilder :=
  match k with
  | 0 => Some s
  | S k' => s' ← redo s; redoTimes k' s'
  end.

(** The (source, sourceHandle) pairs of an edge list, in order. *)
Definition outKeys (es : list Edge.t) : list (string * Handle) :=
  (λ e, (Edge.source e, Edge.sourceHandle e)) <$> es.

(** No two edges of the live list, and none of a snapshot, leave the same
    source handle. *)
Definition edges_inv (s : FlowBuilder) : Prop :=
  NoDup (outKeys (edges s)) ∧
  ∀ snap, snap ∈ historyRef s → NoDup (outKeys (Snapshot.edges snap)).

(** ** Sample data *)

Definition sampleNode (i : string) : Node.t :=
  Node.mk i "textNode" (XYPosition.mk 0 0) (NodeData.mk "test message").

(** Sixty snapshots: the graph grows by one node at each commit. *)
Definition sixtySnapshots : list Snapshot.t :=
  (λ n, Snapshot.mk (replicate (S n) (sampleNode "n")) []) <$> seq 0 60.

(** A short session: commits interleaved with undo and redo. *)
Definition shortSession : list HistoryOp :=
  [Commit [sampleNode "a"] [];
   Commit [sampleNode "a"; sampleNode "b"] [];
   Undo; Redo;
   Commit [sampleNode "a"; sampleNode "b"; sampleNode "c"] [];
   Commit [sampleNode "a"; sampleNode "b"; sampleNode "d"] [];
   Undo].

(** The state after two commits and one undo: the guard is up. *)
Definition afterUndo : FlowBuilder :=
  {| nodes := [sampleNode "a"]; edges := []; selectedNode := None;
     historyRef := [emptyGraph;
                    Snapshot.mk [sampleNode "a"] [];
                    Snapshot.mk [sampleNode "a"; sampleNode "b"] []];
     historyIndexRef := 1;
     isUndoRedoAction := true;
     toasts := [] |}.

Definition twoNodes : list Node.t := [sampleNode "a"; sampleNode "b"].

Definition edgeBetween (a b : string) : Edge.t :=
  Edge.mk ("e-" +:+ a +:+ "-" +:+ b) a None b None true (Some (Style.mk 2)).

(** A stand-in for the identifier the canvas library gives a connection. *)
Definition sampleEdgeId (c : Connection.t) : string :=
  "e-" +:+ Connection.source c +:+ "-" +:+ Connection.target c.

(** A stand-in for the library's change applier: it drops the removed nodes
    and ignores every other kind of change. *)
Definition sampleApply (changes : list NodeChange.t) (nds : list Node.t)
    : list Node.t :=
  remainingNodes (removedIds changes) nds.

(** Nodes A, B, C chained by A→B and B→C; B is selected. *)
Definition chain : FlowBuilder :=
  {| nodes := [sampleNode "A"; sampleNode "B"; sampleNode "C"];
     edges := [edgeBetween "A" "B"; edgeBetween "B" "C"];
     selectedNode := Some (sampleNode "B");
     historyRef := [emptyGraph];
     historyIndexRef := 0;
     isUndoRedoAction := false;
     toasts := [] |}.

(** No nodes, yet two edges left over. *)
Definition danglingEdges : FlowBuilder :=
  setEdges [edgeBetween "A" "B"; edgeBetween "C" "D"] initial.

(** A stand-in for the library's edge-change applier: it drops the removed
    edges and ignores every other kind of change. *)
Definition sampleApplyEdges (changes : list EdgeChange.t) (es : list Edge.t)
    : list Edge.t :=
  edgesNotRemoved (removedEdgeIds changes) es.

(** A stand-in for [screenToFlowPosition]: no pan, no zoom. *)
Definition sampleToFlow (x y : Z) : XYPosition.t := XYPosition.mk x y.

(** A drag that has not started from the palette. *)
Definition emptyDrag : DragEvent.t :=
  DragEvent.mk (DataTransfer.mk ∅ "none" "none") 120 80.

(** A drag started on the palette's only card. *)
Definition paletteDrag : DragEvent.t := onDragStart "textNode" emptyDrag.

Definition ctrlZ : KeyboardEvent.t := KeyboardEvent.mk true false "z" false.
Definition ctrlY : KeyboardEvent.t := KeyboardEvent.mk true false "y" false.

(** Three drops, connections between the new nodes (one of them refused),
    the removal of an edge, an undo and a save. *)
Definition sampleEvents : list Event :=
  [DropEvent (Some sampleToFlow) "n1" paletteDrag;
   DropEvent (Some sampleToFlow) "n2" paletteDrag;
   DropEvent (Some sampleToFlow) "n3" paletteDrag;
   ConnectEvent (Connection.mk "n1" (Some "source") "n2" (Some "target"));
   ConnectEvent (Connection.mk "n1" (Some "source") "n3" (Some "target"));
   ConnectEvent (Connection.mk "n2" (Some "source") "n3" (Some "target"));
   EdgesChangeEvent [EdgeChange.mk "remove" "e-n1-n2"];
   KeyDownEvent ctrlZ;
   SaveEvent].

(** The state [afterUndo] with node "a" selected for editing. *)
Definition editing : FlowBuilder := onNodeClick (sampleNode "a") afterUndo.

(** * Properties *)

(** ** The history engine *)

Lemma snapshot_eta sn : Snapshot.mk (Snapshot.nodes sn) (Snapshot.edges sn) = sn.
Proof. by destruct sn. Qed.

Lemma pushHistory_armed newNodes newEdges s :
  isUndoRedoAction s = true →
  historyRef (pushHistory newNodes newEdges s) = historyRef s ∧
  historyIndexRef (pushHistory newNodes newEdges s) = historyIndexRef s ∧
  isUndoRedoAction (pushHistory newNodes newEdges s) = false.
Proof. intros Hg. unfold pushHistory. by rewrite Hg. Qed.

Lemma pushHistory_guard newNodes newEdges s :
  isUndoRedoAction (pushHistory newNodes newEdges s) = false.
Proof. unfold pushHistory. by destruct (isUndoRedoAction s); [|case_decide]. Qed.

Lemma pushHistory_live newNodes newEdges s :
  nodes (pushHistory newNodes newEdges s) = nodes s ∧
  edges (pushHistory newNodes newEdges s) = edges s ∧
  selectedNode (pushHistory newNodes newEdges s) = selectedNode s ∧
  toasts (pushHistory newNodes newEdges s) = toasts s.
Proof. unfold pushHistory. by destruct (isUndoRedoAction s); [|case_decide]. Qed.

(** An unsuppressed commit leaves the cursor on the snapshot just pushed. *)
Lemma pushHistory_current newNodes newEdges s :
  isUndoRedoAction s = false →
  current (pushHistory newNodes newEdges s) = Some (Snapshot.mk newNodes newEdges).
Proof.
  intros Hg. unfold pushHistory, current, jsonClone. rewrite Hg. cbn.
  set (pre := take (historyIndexRef s + 1) (historyRef s)).
  case_decide as Hlen.
  - rewrite length_app in Hlen. cbn in Hlen. unfold MAX_HISTORY in Hlen.
    rewrite lookup_drop, length_drop, length_app. cbn.
    rewrite lookup_app_r by lia.
    match goal with |- _ !! ?k = _ => replace k with 0 by lia end. done.
  - rewrite length_app. cbn. rewrite lookup_app_r by lia.
    match goal with |- _ !! ?k = _ => replace k with 0 by lia end. done.
Qed.

Lemma pushHistory_inv newNodes newEdges s :
  history_inv s → history_inv (pushHistory newNodes newEdges s).
Proof.
  intros (H0 & Hlt & Hmax). unfold pushHistory, history_inv in *.
  destruct (isUndoRedoAction s); cbn; [done|].
  set (pre := take (historyIndexRef s + 1) (historyRef s)).
  assert (length pre ≤ MAX_HISTORY) as Hpre.
  { subst pre. rewrite length_take. lia. }
  unfold MAX_HISTORY in *.
  case_decide as Hlen; rewrite ?length_drop, !length_app in *; cbn in *; lia.
Qed.

Lemma replaceWith_spec i s :
  i < length (historyRef s) →
  ∃ snap, historyRef s !! i = Some snap ∧
    replaceWith i s =
      Some {| nodes := Snapshot.nodes snap; edges := Snapshot.edges snap;
              selectedNode := None; historyRef := historyRef s;
              historyIndexRef := i; isUndoRedoAction := true;
              toasts := toasts s |}.
Proof.
  intros Hi. destruct (lookup_lt_is_Some_2 _ _ Hi) as [snap Hsnap].
  exists snap. split; [done|]. unfold replaceWith. by rewrite Hsnap.
Qed.

Lemma undo_inv s :
  history_inv s → ∃ s', undo s = Some s' ∧ history_inv s' ∧
    historyRef s' = historyRef s ∧ historyIndexRef s' = historyIndexRef s - 1.
Proof.
  intros (H0 & Hlt & Hmax). unfold undo. case_decide as Hz.
  - exists s. repeat split; try done. lia.
  - destruct (replaceWith_spec (historyIndexRef s - 1) s) as (snap & _ & ->); [lia|].
    eexists. split; [done|]. unfold history_inv. cbn. repeat split; lia.
Qed.

Lemma redo_inv s :
  history_inv s → ∃ s', redo s = Some s' ∧ history_inv s' ∧
    historyRef s' = historyRef s.
Proof.
  intros (H0 & Hlt & Hmax). unfold redo. case_decide as Hz.
  - by exists s.
  - destruct (replaceWith_spec (historyIndexRef s + 1) s) as (snap & _ & ->); [lia|].
    eexists. split; [done|]. unfold history_inv. cbn. repeat split; lia.
Qed.

Lemma step_inv op s :
  history_inv s → ∃ s', step op s = Some s' ∧ history_inv s'.
Proof.
  intros Hinv. destruct op as [ns es| |]; cbn.
  - eexists. split; [done|]. by apply pushHistory_inv.
  - destruct (undo_inv s Hinv) as (s' & ? & ? & _). eauto.
  - destruct (redo_inv s Hinv) as (s' & ? & ? & _). eauto.
Qed.

Lemma run_inv ops s :
  history_inv s → ∃ s', run ops s = Some s' ∧ history_inv s'.
Proof.
  revert s. induction ops as [|op ops IH]; intros s Hinv; cbn.
  - eauto.
  - destruct (step_inv op s Hinv) as (s1 & -> & Hinv1). cbn. by apply IH.
Qed.

Lemma initial_inv : history_inv initial.
Proof. unfold history_inv, MAX_HISTORY. cbn. lia. Qed.

Lemma drop_to_cap {A} (l : list A) :
  length l ≤ S MAX_HISTORY →
  (if decide (MAX_HISTORY < length l) then drop 1 l else l)
  = drop (length l - MAX_HISTORY) l.
Proof.
  intros Hl. case_decide.
  - by replace (length l - MAX_HISTORY) with 1 by lia.
  - by replace (length l - MAX_HISTORY) with 0 by lia.
Qed.

Lemma pushHistory_tip newNodes newEdges s :
  isUndoRedoAction s = false →
  historyIndexRef s = length (historyRef s) - 1 →
  1 ≤ length (historyRef s) ≤ MAX_HISTORY →
  let s' := pushHistory newNodes newEdges s in
  let pushed := historyRef s ++ [Snapshot.mk newNodes newEdges] in
  historyRef s' = drop (length pushed - MAX_HISTORY) pushed ∧
  historyIndexRef s' = length (historyRef s') - 1 ∧
  1 ≤ length (historyRef s') ≤ MAX_HISTORY.
Proof.
  intros Hg Hidx Hlen. cbn zeta. unfold pushHistory, jsonClone. rewrite Hg. cbn.
  rewrite take_ge by lia.
  rewrite drop_to_cap by (rewrite length_app; cbn; lia).
  split; [done|]. split; [done|].
  rewrite length_drop, length_app. cbn. unfold MAX_HISTORY in *. lia.
Qed.

(** Committing [snaps] one after the other from the tip keeps the newest
    [MAX_HISTORY] entries of the old history followed by [snaps]. *)
Lemma run_commits snaps : ∀ s,
  isUndoRedoAction s = false →
  historyIndexRef s = length (historyRef s) - 1 →
  1 ≤ length (historyRef s) ≤ MAX_HISTORY →
  ∃ s', run (commits snaps) s = Some s' ∧
    historyRef s' =
      drop (length (historyRef s ++ snaps) - MAX_HISTORY) (historyRef s ++ snaps) ∧
    historyIndexRef s' = length (historyRef s') - 1 ∧
    isUndoRedoAction s' = false ∧
    live s' = live s.
Proof.
  induction snaps as [|sn snaps IH]; intros s Hg Hidx Hlen.
  - exists s. cbn. rewrite app_nil_r.
    replace (length (historyRef s) - MAX_HISTORY) with 0 by lia. done.
  - cbn. destruct sn as [ns es]. cbn.
    destruct (pushHistory_tip ns es s Hg Hidx Hlen) as (Hh & Hi & Hl).
    destruct (IH (pushHistory ns es s) (pushHistory_guard _ _ _) Hi Hl)
      as (s' & Hrun & Hh' & Hi' & Hg' & Hlive).
    exists s'. split; [done|]. split; [|split; [done|split; [done|]]].
    + rewrite Hh', Hh. set (sn := Snapshot.mk ns es).
      set (pushed := historyRef s ++ [sn]).
      assert (length pushed = length (historyRef s) + 1) as Hp
        by (subst pushed; rewrite length_app; cbn; lia).
      rewrite <- (drop_app_le pushed snaps) by lia.
      rewrite drop_drop, length_drop.
      replace (pushed ++ snaps) with (historyRef s ++ sn :: snaps)
        by (subst pushed; by rewrite <- (assoc_L (++))).
      f_equal. rewrite !length_app in *. cbn. unfold MAX_HISTORY in *. lia.
    + rewrite Hlive. unfold live.
      by destruct (pushHistory_live ns es s) as (-> & -> & _).
Qed.

Lemma undo_at_oldest s : historyIndexRef s = 0 → undo s = Some s.
Proof. intros Hz. unfold undo. rewrite Hz. by case_decide; [|lia]. Qed.

Lemma undo_moves s :
  0 < historyIndexRef s < length (historyRef s) →
  ∃ s', undo s = Some s' ∧
    historyRef s' = historyRef s ∧
    historyIndexRef s' = historyIndexRef s - 1 ∧
    historyRef s !! (historyIndexRef s - 1) = Some (live s') ∧
    selectedNode s' = None ∧ isUndoRedoAction s' = true ∧
    toasts s' = toasts s.
Proof.
  intros Hi. unfold undo. case_decide; [lia|].
  destruct (replaceWith_spec (historyIndexRef s - 1) s) as (snap & Hsnap & ->); [lia|].
  eexists. split; [done|]. cbn. rewrite Hsnap. unfold live. cbn.
  by rewrite snapshot_eta.
Qed.

(** [k] undos in a row walk the cursor down one entry at a time and stop at
    entry 0; the history itself is never touched. *)
Lemma undoTimes_spec k : ∀ s,
  historyIndexRef s < length (historyRef s) →
  ∃ s', undoTimes k s = Some s' ∧
    historyRef s' = historyRef s ∧
    historyIndexRef s' = historyIndexRef s - k ∧
    toasts s' = toasts s ∧
    (k = 0 ∨ historyIndexRef s = 0 → s' = s) ∧
    (0 < k → 0 < historyIndexRef s →
       historyRef s !! (historyIndexRef s - k) = Some (live s') ∧
       selectedNode s' = None).
Proof.
  induction k as [|k IH]; intros s Hlt.
  - exists s. cbn. repeat split; try done; try lia.
  - cbn. destruct (decide (historyIndexRef s = 0)) as [Hz|Hnz].
    + rewrite (undo_at_oldest s Hz). cbn.
      destruct (IH s Hlt) as (s' & Hrun & Hh & Hi & Ht & Hsame & _).
      exists s'. split; [done|]. split; [done|]. split; [lia|]. split; [done|].
      split; [intros _; apply Hsame; by right | lia].
    + destruct (undo_moves s) as (s1 & -> & Hh1 & Hi1 & Hlive1 & Hsel1 & _ & Ht1); [lia|].
      cbn. destruct (IH s1) as (s' & Hrun & Hh & Hi & Ht & Hsame & Hlive);
        [rewrite Hh1, Hi1; lia|].
      exists s'. split; [done|]. split; [congruence|]. split; [lia|].
      split; [congruence|]. split; [intros [?|?]; lia|]. intros _ _.
      destruct (decide (k = 0 ∨ historyIndexRef s1 = 0)) as [Hstop|Hgo].
      * rewrite (Hsame Hstop). split; [|done]. rewrite <- Hlive1. f_equal.
        destruct Hstop; lia.
      * destruct Hlive as [Hl Hs]; [lia..|]. split; [|done].
        rewrite <- Hl, Hh1. f_equal. lia.
Qed.

(** C3. The history stays bounded: from the initial state every sequence of
    commit, undo and redo runs to completion and ends in a state with
    [0 ≤ cursor < length ≤ 50].  In particular, after 60 commits in a row the
    history holds exactly 50 entries, namely the 60 committed snapshots
    without their 10 oldest (the initial empty snapshot has been evicted
    before them), the cursor is on the last committed snapshot, and [k] undos
    leave the cursor at [49 - k], hence at entry 0 (the oldest retained
    snapshot, which then is the live graph) for every [k ≥ 49], with the
    history untouched. *)
Theorem history_bounded :
  (∀ ops, ∃ s, run ops initial = Some s ∧ history_inv s) ∧
  (∀ snaps, length snaps = 60 →
     ∃ s, run (commits snaps) initial = Some s ∧
       historyRef s = drop 10 snaps ∧
       length (historyRef s) = 50 ∧
       historyIndexRef s = 49 ∧
       current s = last snaps ∧
       ∀ k, ∃ s', undoTimes k s = Some s' ∧
         historyRef s' = historyRef s ∧
         historyIndexRef s' = 49 - k ∧
         (49 ≤ k → historyIndexRef s' = 0 ∧ snaps !! 10 = Some (live s'))).
Proof.
  split.
  - intros ops. apply run_inv, initial_inv.
  - intros snaps Hlen.
    destruct (run_commits snaps initial) as (s & Hrun & Hh & Hi & Hg & _);
      [done|done|unfold MAX_HISTORY; cbn; lia|].
    cbn in Hh. rewrite Hlen in Hh. cbn in Hh.
    assert (length (historyRef s) = 50) as Hl by (rewrite Hh, length_drop; lia).
    exists s. split; [done|]. split; [done|]. split; [done|].
    split; [lia|]. split.
    { unfold current. rewrite Hi, Hl, Hh, lookup_drop, last_lookup, Hlen. done. }
    intros k. destruct (undoTimes_spec k s) as (s' & Hk & Hh' & Hi' & _ & _ & Hlive);
      [lia|].
    exists s'. split; [done|]. split; [done|]. split; [lia|].
    intros Hk49. split; [lia|].
    destruct Hlive as [Hl' _]; [lia..|].
    rewrite <- Hl', Hh, lookup_drop. f_equal. lia.
Qed.

Lemma history_bounded_witness :
  length sixtySnapshots = 60 ∧
  ∃ s, run (commits sixtySnapshots) initial = Some s ∧
    historyRef s = drop 10 sixtySnapshots ∧
    length (historyRef s) = 50 ∧
    historyIndexRef s = 49 ∧
    current s = last sixtySnapshots ∧
    ∀ k, ∃ s', undoTimes k s = Some s' ∧
      historyRef s' = historyRef s ∧
      historyIndexRef s' = 49 - k ∧
      (49 ≤ k → historyIndexRef s' = 0 ∧ sixtySnapshots !! 10 = Some (live s')).
Proof.
  split; [reflexivity|].
  apply (proj2 history_bounded sixtySnapshots). reflexivity.
Defined.

(** While at most [MAX_HISTORY] entries are ever needed nothing is evicted,
    so entry 0 stays what it was. *)
Lemma step_keeps_oldest op s origin :
  historyIndexRef s < length (historyRef s) →
  historyRef s !! 0 = Some origin →
  length (historyRef s) + commitCount [op] ≤ MAX_HISTORY →
  ∃ s', step op s = Some s' ∧
    historyIndexRef s' < length (historyRef s') ∧
    historyRef s' !! 0 = Some origin ∧
    length (historyRef s') ≤ length (historyRef s) + commitCount [op].
Proof.
  intros Hlt H0 Hroom. destruct op as [ns es| |]; cbn [step].
  - change (commitCount [Commit ns es]) with 1 in *.
    eexists. split; [done|]. unfold pushHistory.
    destruct (isUndoRedoAction s); cbn; [repeat split; try done; lia|].
    set (pre := take (historyIndexRef s + 1) (historyRef s)).
    assert (length pre = historyIndexRef s + 1) as Hpre
      by (subst pre; rewrite length_take; lia).
    case_decide as Hcap; [rewrite length_app in Hcap; cbn in Hcap; lia|].
    rewrite length_app. cbn. split; [lia|]. split; [|lia].
    rewrite lookup_app_l by lia. subst pre. by rewrite lookup_take_lt by lia.
  - change (commitCount [Undo]) with 0 in *.
    destruct (decide (historyIndexRef s = 0)) as [Hz|Hnz].
    + rewrite (undo_at_oldest s Hz). exists s. repeat split; try done; lia.
    + destruct (undo_moves s) as (s' & -> & Hh & Hi & _); [lia|].
      exists s'. rewrite Hh, Hi. repeat split; try done; lia.
  - change (commitCount [Redo]) with 0 in *.
    unfold redo. case_decide.
    + exists s. repeat split; try done; lia.
    + destruct (replaceWith_spec (historyIndexRef s + 1) s) as (snap & _ & ->); [lia|].
      eexists. split; [done|]. cbn. repeat split; try done; lia.
Qed.

Lemma commitCount_cons op ops :
  commitCount (op :: ops) = commitCount [op] + commitCount ops.
Proof. unfold commitCount. rewrite !filter_cons, filter_nil. by case_decide. Qed.

Lemma run_keeps_oldest ops : ∀ s origin,
  historyIndexRef s < length (historyRef s) →
  historyRef s !! 0 = Some origin →
  length (historyRef s) + commitCount ops ≤ MAX_HISTORY →
  ∃ s', run ops s = Some s' ∧
    historyIndexRef s' < length (historyRef s') ∧
    historyRef s' !! 0 = Some origin.
Proof.
  induction ops as [|op ops IH]; intros s origin Hlt H0 Hroom.
  - exists s. by cbn.
  - rewrite commitCount_cons in Hroom. cbn [run].
    destruct (step_keeps_oldest op s origin) as (s1 & -> & Hlt1 & H01 & Hlen1);
      [done|done|lia|].
    cbn. apply IH; [done|done|lia].
Qed.

(** X20. The history starts as the single empty-graph snapshot with the
    cursor on it.  A first commit, of any graph, followed by one undo leaves
    the empty graph live; and after any sequence of commits, undos and redos
    with fewer than 50 commits entry 0 of the history is still the empty
    graph, and undoing as often as the cursor is high (or more) ends with the
    cursor on that entry, which is then the live graph provided the cursor
    was above 0, so that an undo moved at all. *)
Theorem history_starts_empty :
  (historyRef initial = [emptyGraph] ∧ historyIndexRef initial = 0) ∧
  (∀ ns es,
     ∃ s, undo (pushHistory ns es (setEdges es (setNodes ns initial))) = Some s ∧
       nodes s = [] ∧ edges s = [] ∧ current s = Some emptyGraph) ∧
  (∀ ops, commitCount ops < 50 →
     ∃ s, run ops initial = Some s ∧
       historyRef s !! 0 = Some emptyGraph ∧
       ∀ k, historyIndexRef s ≤ k →
         ∃ s', undoTimes k s = Some s' ∧
           historyIndexRef s' = 0 ∧
           current s' = Some emptyGraph ∧
           (0 < historyIndexRef s → live s' = emptyGraph)).
Proof.
  split; [done|]. split.
  - intros ns es. eexists. split; [reflexivity|]. done.
  - intros ops Hfew.
    destruct (run_keeps_oldest ops initial emptyGraph) as (s & Hrun & Hlt & H0);
      [cbn; lia|done|unfold MAX_HISTORY; cbn; lia|].
    exists s. split; [done|]. split; [done|]. intros k Hk.
    destruct (undoTimes_spec k s Hlt) as (s' & Hrun' & Hh & Hi & _ & _ & Hlive).
    exists s'. split; [done|]. split; [lia|]. split.
    + unfold current. rewrite Hh. by replace (historyIndexRef s') with 0 by lia.
    + intros Hpos. destruct Hlive as [Hl _]; [lia..|].
      replace (historyIndexRef s - k) with 0 in Hl by lia. congruence.
Qed.

Lemma history_starts_empty_witness :
  commitCount shortSession < 50 ∧
  ∃ s, run shortSession initial = Some s ∧
    historyRef s !! 0 = Some emptyGraph ∧
    ∀ k, historyIndexRef s ≤ k →
      ∃ s', undoTimes k s = Some s' ∧
        historyIndexRef s' = 0 ∧
        current s' = Some emptyGraph ∧
        (0 < historyIndexRef s → live s' = emptyGraph).
Proof.
  assert (commitCount shortSession < 50) as Hfew by (vm_compute; lia).
  split; [exact Hfew|].
  exact (proj2 (proj2 history_starts_empty) shortSession Hfew).
Defined.

(** C10. Drop a node, press Ctrl+Z, drop another node.  The undo raises the
    guard, so the second drop is not recorded: the cursor is on entry 0, the
    empty graph, while the live graph holds the second node.  From there
    every undo is a no-op, so no sequence of undos ends at the empty graph,
    although a single commit was ever recorded. *)
Theorem undo_all_keeps_unrecorded_drop :
  ∃ s,
    runEvents sampleEdgeId sampleApply sampleApplyEdges
      [DropEvent (Some sampleToFlow) "n1" paletteDrag;
       KeyDownEvent ctrlZ;
       DropEvent (Some sampleToFlow) "n2" paletteDrag] initial = Some s ∧
    historyRef s = [emptyGraph;
                    Snapshot.mk [droppedNode "n1" "textNode" (sampleToFlow 120 80) []] []] ∧
    historyIndexRef s = 0 ∧
    current s = Some emptyGraph ∧
    nodes s = [droppedNode "n2" "textNode" (sampleToFlow 120 80) []] ∧
    live s ≠ emptyGraph ∧
    ∀ k, undoTimes k s = Some s.
Proof.
  eexists. split; [vm_compute; reflexivity|].
  split; [vm_compute; reflexivity|]. split; [reflexivity|].
  split; [reflexivity|]. split; [vm_compute; reflexivity|].
  split; [discriminate|].
  intros k. induction k as [|k IH]; [reflexivity|].
  cbn [undoTimes]. rewrite undo_at_oldest by reflexivity. exact IH.
Qed.

Lemma redo_at_newest s :
  historyIndexRef s = length (historyRef s) - 1 → redo s = Some s.
Proof. intros Hz. unfold redo. by case_decide; [|lia]. Qed.

Lemma redo_moves s :
  historyIndexRef s + 1 < length (historyRef s) →
  ∃ s', redo s = Some s' ∧
    historyRef s' = historyRef s ∧
    historyIndexRef s' = historyIndexRef s + 1 ∧
    historyRef s !! (historyIndexRef s + 1) = Some (live s') ∧
    selectedNode s' = None ∧ isUndoRedoAction s' = true ∧
    toasts s' = toasts s.
Proof.
  intros Hi. unfold redo. case_decide; [lia|].
  destruct (replaceWith_spec (historyIndexRef s + 1) s) as (snap & Hsnap & ->); [lia|].
  eexists. split; [done|]. cbn. rewrite Hsnap. unfold live. cbn.
  by rewrite snapshot_eta.
Qed.

Lemma replaceWith_history i s s' :
  replaceWith i s = Some s' →
  historyRef s' = historyRef s ∧ historyIndexRef s' = i ∧
  isUndoRedoAction s' = true.
Proof.
  unfold replaceWith. destruct (historyRef s !! i); cbn; [|done].
  by intros [= <-].
Qed.

(** C5. The guard [isUndoRedoAction] goes up only in [undo] and [redo]: a
    step that finds it down and leaves it up is one of the two, the handlers
    that commit or edit leave it down when they find it down, and a commit
    always leaves it down.  A commit that finds it up changes neither the
    history nor the cursor and takes it down, so the commit after that one is
    recorded again.  [undo] and [redo] themselves never change the list of
    entries, and they raise the guard exactly when they move the cursor. *)
Theorem guard_single_use (getEdgeId : Connection.t → string)
    (applyNodeChanges : list NodeChange.t → list Node.t → list Node.t)
    (s : FlowBuilder) :
  (∀ op s', step op s = Some s' →
     isUndoRedoAction s = false → isUndoRedoAction s' = true →
     op = Undo ∨ op = Redo) ∧
  (isUndoRedoAction s = false →
     ∀ params changes newText,
       isUndoRedoAction (onConnect getEdgeId params s) = false ∧
       isUndoRedoAction (handleNodesChange applyNodeChanges changes s) = false ∧
       isUndoRedoAction (onTextChange newText s) = false ∧
       isUndoRedoAction (onSave s) = false) ∧
  (∀ ns es, isUndoRedoAction (pushHistory ns es s) = false) ∧
  (isUndoRedoAction s = true →
     ∀ ns es,
       historyRef (pushHistory ns es s) = historyRef s ∧
       historyIndexRef (pushHistory ns es s) = historyIndexRef s ∧
       isUndoRedoAction (pushHistory ns es s) = false ∧
       ∀ ns' es',
         current (pushHistory ns' es' (pushHistory ns es s))
         = Some (Snapshot.mk ns' es')) ∧
  (∀ op s', (op = Undo ∨ op = Redo) → step op s = Some s' →
     historyRef s' = historyRef s ∧
     (historyIndexRef s' ≠ historyIndexRef s → isUndoRedoAction s' = true) ∧
     (historyIndexRef s' = historyIndexRef s → s' = s)).
Proof.
  split; [|split; [|split; [|split]]].
  - intros op s' Hstep Hdown Hup. destruct op as [ns es| |]; [|by left|by right].
    cbn in Hstep. injection Hstep as <-. by rewrite pushHistory_guard in Hup.
  - intros Hdown params changes newText. repeat split.
    + unfold onConnect. destruct (sourceHasEdge _ _); [done|].
      apply pushHistory_guard.
    + unfold handleNodesChange. destruct (bool_decide (Exists _ _)); [|done].
      destruct (selectedNode s) as [sel|]; [|apply pushHistory_guard].
      destruct (bool_decide _); apply pushHistory_guard.
    + unfold onTextChange. by destruct (list_find _ _) as [[? ?]|].
    + done.
  - intros ns es. apply pushHistory_guard.
  - intros Hup ns es.
    destruct (pushHistory_armed ns es s Hup) as (Hh & Hi & Hg).
    repeat split; try done. intros ns' es'. by apply pushHistory_current.
  - intros op s' [-> | ->] Hstep; cbn in Hstep.
    + unfold undo in Hstep. case_decide.
      * injection Hstep as <-. done.
      * destruct (replaceWith_history _ _ _ Hstep) as (Hh & Hi & Hg).
        repeat split; try done. lia.
    + unfold redo in Hstep. case_decide.
      * injection Hstep as <-. done.
      * destruct (replaceWith_history _ _ _ Hstep) as (Hh & Hi & Hg).
        repeat split; try done. lia.
Qed.

Lemma afterUndo_reached :
  run [Commit [sampleNode "a"] [];
       Commit [sampleNode "a"; sampleNode "b"] []; Undo] initial
  = Some afterUndo.
Proof. reflexivity. Qed.

Lemma guard_single_use_witness :
  isUndoRedoAction afterUndo = true ∧
  ∀ ns es,
    historyRef (pushHistory ns es afterUndo) = historyRef afterUndo ∧
    historyIndexRef (pushHistory ns es afterUndo) = historyIndexRef afterUndo ∧
    isUndoRedoAction (pushHistory ns es afterUndo) = false ∧
    ∀ ns' es',
      current (pushHistory ns' es' (pushHistory ns es afterUndo))
      = Some (Snapshot.mk ns' es').
Proof.
  split; [reflexivity|].
  apply (proj1 (proj2 (proj2 (proj2
           (guard_single_use sampleEdgeId sampleApply afterUndo))))).
  reflexivity.
Defined.

(** C6. In a state that satisfies the history invariant, [undo] with the
    cursor on entry 0 and [redo] with the cursor on the last entry return
    the state as it is (nothing raised, nothing notified).  Otherwise [undo]
    moves the cursor down by one and [redo] up by one, the live nodes and
    edges become those of the snapshot under the new cursor, the selection
    is cleared, and the list of history entries stays the same. *)
Theorem undo_redo_spec (s : FlowBuilder) :
  history_inv s →
  (historyIndexRef s = 0 → undo s = Some s) ∧
  (historyIndexRef s = length (historyRef s) - 1 → redo s = Some s) ∧
  (historyIndexRef s ≠ 0 →
     ∃ s', undo s = Some s' ∧
       historyIndexRef s' = historyIndexRef s - 1 ∧
       current s' = Some (live s') ∧
       selectedNode s' = None ∧
       historyRef s' = historyRef s ∧ toasts s' = toasts s) ∧
  (historyIndexRef s ≠ length (historyRef s) - 1 →
     ∃ s', redo s = Some s' ∧
       historyIndexRef s' = historyIndexRef s + 1 ∧
       current s' = Some (live s') ∧
       selectedNode s' = None ∧
       historyRef s' = historyRef s ∧ toasts s' = toasts s).
Proof.
  intros (_ & Hlt & _). split; [apply undo_at_oldest|].
  split; [apply redo_at_newest|]. split.
  - intros Hnz. destruct (undo_moves s) as (s' & Hu & Hh & Hi & Hl & Hs & _ & Ht); [lia|].
    exists s'. unfold current. rewrite Hh, Hi. done.
  - intros Hnl. destruct (redo_moves s) as (s' & Hu & Hh & Hi & Hl & Hs & _ & Ht); [lia|].
    exists s'. unfold current. rewrite Hh, Hi. done.
Qed.

Lemma afterUndo_inv : history_inv afterUndo.
Proof. unfold history_inv, MAX_HISTORY. cbn. lia. Qed.

Lemma undo_redo_spec_witness :
  history_inv afterUndo ∧
  (∃ s', undo afterUndo = Some s' ∧ historyIndexRef s' = 0 ∧ live s' = emptyGraph) ∧
  (∃ s', redo afterUndo = Some s' ∧ historyIndexRef s' = 2 ∧
         nodes s' = [sampleNode "a"; sampleNode "b"]).
Proof.
  split; [exact afterUndo_inv|].
  destruct (undo_redo_spec afterUndo afterUndo_inv) as (_ & _ & Hu & Hr).
  split.
  - destruct Hu as (s' & Hs' & _); [cbn; lia|].
    exists s'. split; [exact Hs'|]. vm_compute in Hs'. injection Hs' as <-. done.
  - destruct Hr as (s' & Hs' & _); [cbn; lia|].
    exists s'. split; [exact Hs'|]. vm_compute in Hs'. injection Hs' as <-. done.
Defined.

(** The future survives an undo followed by a commit. *)
Lemma commit_after_undo_suppressed s ns es :
  0 < historyIndexRef s < length (historyRef s) →
  ∃ s1 s3, undo s = Some s1 ∧
    historyRef (pushHistory ns es s1) = historyRef s ∧
    historyIndexRef (pushHistory ns es s1) = historyIndexRef s - 1 ∧
    redo (pushHistory ns es s1) = Some s3 ∧
    historyIndexRef s3 = historyIndexRef s ∧
    historyRef s !! historyIndexRef s = Some (live s3).
Proof.
  intros Hi. destruct (undo_moves s Hi) as (s1 & Hu & Hh & Hidx & _ & _ & Hg & _).
  destruct (pushHistory_armed ns es s1 Hg) as (Hh2 & Hi2 & _).
  destruct (redo_moves (pushHistory ns es s1)) as (s3 & Hr & Hh3 & Hi3 & Hl3 & _);
    [rewrite Hh2, Hi2, Hh, Hidx; lia|].
  exists s1, s3. split; [done|]. split; [congruence|]. split; [congruence|].
  split; [done|]. split; [lia|].
  rewrite <- Hl3, Hh2, Hi2, Hh, Hidx. f_equal. lia.
Qed.

(** C4. Commit [a], commit [a; b], undo, then commit [a; c].  The last
    commit finds the guard raised by the undo and is dropped: the history
    still ends with the snapshot [a; b], nothing past the cursor was cut and
    [a; c] was not appended.  A redo then is not a no-op: it moves the cursor
    onto [a; b] and makes that the live graph. *)
Theorem undo_then_commit_keeps_future :
  ∃ s2 s3,
    run [Commit [sampleNode "a"] [];
         Commit [sampleNode "a"; sampleNode "b"] [];
         Undo;
         Commit [sampleNode "a"; sampleNode "c"] []] initial = Some s2 ∧
    historyRef s2 = [emptyGraph;
                     Snapshot.mk [sampleNode "a"] [];
                     Snapshot.mk [sampleNode "a"; sampleNode "b"] []] ∧
    historyIndexRef s2 = 1 ∧
    redo s2 = Some s3 ∧
    s3 ≠ s2 ∧
    historyIndexRef s3 = 2 ∧
    live s3 = Snapshot.mk [sampleNode "a"; sampleNode "b"] [].
Proof.
  eexists _, _. split; [reflexivity|]. split; [reflexivity|].
  split; [reflexivity|]. split; [reflexivity|]. split; [|done].
  intros Heq. by apply (f_equal historyIndexRef) in Heq.
Qed.

(** ** Connections and node removal *)

Lemma sourceHasEdge_iff params es :
  sourceHasEdge params es = true ↔
  ∃ e, e ∈ es ∧ Edge.source e = Connection.source params ∧
       Edge.sourceHandle e = Connection.sourceHandle params.
Proof.
  unfold sourceHasEdge. rewrite bool_decide_eq_true, Exists_exists. done.
Qed.



Section CanvasProperties.
Variable getEdgeId : Connection.t → string.
Variable applyNodeChanges : list NodeChange.t → list Node.t → list Node.t.

(** C1. [onConnect] takes the rejecting branch exactly when the edge list
    already holds an edge with the source and source handle of the proposed
    connection; targets play no part, so self-loops, reversed edges and
    second edges into one target pass.  A rejected connection only adds the
    warning to the notifications: nodes, edges, selection, history, cursor
    and guard stay as they were.  An accepted one makes the edge list the
    old one followed by the proposed edge (the connection's four fields,
    marked animated and styled) and notifies nothing. *)
Theorem onConnect_spec (params : Connection.t) (s : FlowBuilder) :
  let duplicate :=
    ∃ e, e ∈ edges s ∧ Edge.source e = Connection.source params ∧
         Edge.sourceHandle e = Connection.sourceHandle params in
  let s' := onConnect getEdgeId params s in
  let e' := styledEdge getEdgeId params in
  (s' = toast duplicateWarning s ↔ duplicate) ∧
  (duplicate →
     toasts s' = toasts s ++ [duplicateWarning] ∧
     edges s' = edges s ∧ nodes s' = nodes s ∧
     selectedNode s' = selectedNode s ∧
     historyRef s' = historyRef s ∧
     historyIndexRef s' = historyIndexRef s ∧
     isUndoRedoAction s' = isUndoRedoAction s) ∧
  (¬ duplicate → edges s' = edges s ++ [e'] ∧ toasts s' = toasts s) ∧
  (Edge.source e' = Connection.source params ∧
   Edge.sourceHandle e' = Connection.sourceHandle params ∧
   Edge.target e' = Connection.target params ∧
   Edge.targetHandle e' = Connection.targetHandle params).
Proof.
  cbn zeta. rewrite <- sourceHasEdge_iff. unfold onConnect.
  destruct (sourceHasEdge params (edges s)) eqn:Hdup.
  - split; [done|]. split; [done|]. split; [|done]. by intros [].
  - destruct (pushHistory_live (nodes s)
                (addEdge (styledEdge getEdgeId params) (edges s))
                (setEdges (addEdge (styledEdge getEdgeId params) (edges s)) s))
      as (Hn & He & Hs & Ht).
    split; [|split; [done|split; [|done]]].
    + split; [|done]. intros Heq. apply (f_equal edges) in Heq.
      rewrite He in Heq. cbn in Heq. unfold addEdge in Heq.
      apply (f_equal length) in Heq. rewrite length_app in Heq. cbn in Heq. lia.
    + intros _. by rewrite He, Ht.
Qed.

End CanvasProperties.

(** On the chain A→B→C: a second edge out of A's handle is refused with the
    warning and changes nothing else.  The self-loop C→C passes, and so does
    C→B, which reverses B→C and is a second edge into B; an edge out of
    another handle of A passes as well. *)
Lemma onConnect_spec_witness :
  (toasts (onConnect sampleEdgeId (Connection.mk "A" None "C" None) chain)
     = [duplicateWarning] ∧
   edges (onConnect sampleEdgeId (Connection.mk "A" None "C" None) chain)
     = edges chain ∧
   historyRef (onConnect sampleEdgeId (Connection.mk "A" None "C" None) chain)
     = historyRef chain) ∧
  edges (onConnect sampleEdgeId (Connection.mk "C" None "C" None) chain)
    = edges chain ++ [styledEdge sampleEdgeId (Connection.mk "C" None "C" None)] ∧
  edges (onConnect sampleEdgeId (Connection.mk "C" None "B" None) chain)
    = edges chain ++ [styledEdge sampleEdgeId (Connection.mk "C" None "B" None)] ∧
  edges (onConnect sampleEdgeId (Connection.mk "A" (Some "right") "B" None) chain)
    = edges chain
        ++ [styledEdge sampleEdgeId (Connection.mk "A" (Some "right") "B" None)].
Proof.
  assert (∀ params,
            sourceHasEdge params (edges chain) = false →
            ¬ ∃ e, e ∈ edges chain ∧
                   Edge.source e = Connection.source params ∧
                   Edge.sourceHandle e = Connection.sourceHandle params) as Hfree.
  { intros params Hno Hdup. apply sourceHasEdge_iff in Hdup. congruence. }
  split; [|split; [|split]].
  - destruct (onConnect_spec sampleEdgeId (Connection.mk "A" None "C" None) chain)
      as (_ & Hrej & _).
    destruct Hrej as (Ht & He & _ & _ & Hh & _).
    { exists (edgeBetween "A" "B"). split; [left|]. split; reflexivity. }
    split; [exact Ht|]. split; [exact He|exact Hh].
  - destruct (onConnect_spec sampleEdgeId (Connection.mk "C" None "C" None) chain)
      as (_ & _ & Hacc & _).
    apply Hacc, Hfree. reflexivity.
  - destruct (onConnect_spec sampleEdgeId (Connection.mk "C" None "B" None) chain)
      as (_ & _ & Hacc & _).
    apply Hacc, Hfree. reflexivity.
  - destruct (onConnect_spec sampleEdgeId (Connection.mk "A" (Some "right") "B" None) chain)
      as (_ & _ & Hacc & _).
    apply Hacc, Hfree. reflexivity.
Defined.



(** ** Text change *)

Lemma updateNodes_lookup selected newText nds i :
  updateNodes selected newText nds !! i =
  (λ node, if decide (isSelected selected node) then withLabel newText node
           else node) <$> nds !! i.
Proof. unfold updateNodes. apply list_lookup_fmap. Qed.

(** C9. With no node selected, or with a selected id that no node of the
    list carries, the updater of [onTextChange] returns the list it was
    given.  It is a total function, so nothing is raised.  In general the
    result has the length of the input, and entry by entry a node with the
    selected id gets the new text as its [data.label], keeping id, type and
    position, while every other node is returned as it is.  The handler
    stores that list as the live nodes and touches neither edges nor
    history. *)
Theorem updateNodes_spec (selected : option Node.t) (newText : string)
    (nds : list Node.t) :
  (selected = None → updateNodes selected newText nds = nds) ∧
  ((∀ n, n ∈ nds → Some (Node.id n) ≠ Node.id <$> selected) →
     updateNodes selected newText nds = nds) ∧
  length (updateNodes selected newText nds) = length nds ∧
  (∀ i n, nds !! i = Some n →
     (Some (Node.id n) = Node.id <$> selected →
        updateNodes selected newText nds !! i = Some (withLabel newText n)) ∧
     (Some (Node.id n) ≠ Node.id <$> selected →
        updateNodes selected newText nds !! i = Some n)) ∧
  (∀ n, NodeData.label (Node.data (withLabel newText n)) = newText ∧
        Node.id (withLabel newText n) = Node.id n ∧
        Node.type (withLabel newText n) = Node.type n ∧
        Node.position (withLabel newText n) = Node.position n) ∧
  (∀ s, selectedNode s = selected → nodes s = nds →
     nodes (onTextChange newText s) = updateNodes selected newText nds ∧
     edges (onTextChange newText s) = edges s ∧
     historyRef (onTextChange newText s) = historyRef s ∧
     historyIndexRef (onTextChange newText s) = historyIndexRef s ∧
     isUndoRedoAction (onTextChange newText s) = isUndoRedoAction s ∧
     toasts (onTextChange newText s) = toasts s).
Proof.
  assert ((∀ n, n ∈ nds → Some (Node.id n) ≠ Node.id <$> selected) →
          updateNodes selected newText nds = nds) as Habsent.
  { intros Hall. unfold updateNodes. induction nds as [|n nds IH]; [done|].
    cbn. rewrite decide_False by (apply Hall; left).
    f_equal. apply IH. intros m Hm. apply Hall. by right. }
  split; [intros ->; by apply Habsent|]. split; [done|].
  split; [unfold updateNodes; apply length_fmap|]. split.
  - intros i n Hn. rewrite updateNodes_lookup, Hn. cbn. split; intros Hsel.
    + by rewrite decide_True.
    + by rewrite decide_False.
  - split; [done|]. intros s <- <-. unfold onTextChange.
    by destruct (list_find _ _) as [[? ?]|].
Qed.

Lemma updateNodes_spec_witness :
  updateNodes None "hello" twoNodes = twoNodes ∧
  updateNodes (Some (sampleNode "zz")) "hello" twoNodes = twoNodes ∧
  updateNodes (Some (sampleNode "b")) "hello" twoNodes !! 1
  = Some (withLabel "hello" (sampleNode "b")).
Proof.
  split; [|split].
  - apply (proj1 (updateNodes_spec None "hello" twoNodes)). reflexivity.
  - apply (proj1 (proj2 (updateNodes_spec (Some (sampleNode "zz")) "hello" twoNodes))).
    intros n Hn. vm_compute in Hn.
    apply elem_of_cons in Hn as [->|Hn]; [discriminate|].
    apply elem_of_cons in Hn as [->|Hn]; [discriminate|].
    by apply elem_of_nil in Hn.
  - apply (proj1 (proj2 (proj2 (proj2
             (updateNodes_spec (Some (sampleNode "b")) "hello" twoNodes))))
           1 (sampleNode "b")); reflexivity.
Defined.

(** ** Save-time validation *)

Lemma nodesWithEmptyTarget_unreached ns es :
  nodesWithEmptyTarget ns es = unreached ns es.
Proof.
  unfold nodesWithEmptyTarget, unreached, nodesWithIncomingEdge.
  apply list_filter_iff. intros n. by rewrite elem_of_list_to_set.
Qed.

Lemma unreached_iff ns es n :
  n ∈ unreached ns es ↔ n ∈ ns ∧ ¬ ∃ e, e ∈ es ∧ Edge.target e = Node.id n.
Proof.
  unfold unreached. rewrite list_elem_of_filter, list_elem_of_fmap. split.
  - intros [Hnot Hin]. split; [done|]. intros (e & He & Ht). apply Hnot. eauto.
  - intros [Hin Hnot]. split; [|done]. intros (e & Ht & He). apply Hnot. eauto.
Qed.

(** C2. On a non-empty node list [validate] answers [MultipleEntryPoints]
    exactly when more than one node of the list is the target of no edge;
    with exactly one such node, and with none (every node has an incoming
    edge, as in a cycle), it answers [Success]. *)
Theorem validate_entry_points (ns : list Node.t) (es : list Edge.t) :
  ns ≠ [] →
  (∀ n, n ∈ unreached ns es ↔
     n ∈ ns ∧ ¬ ∃ e, e ∈ es ∧ Edge.target e = Node.id n) ∧
  (validate ns es = MultipleEntryPoints ↔ 1 < length (unreached ns es)) ∧
  (length (unreached ns es) = 1 → validate ns es = Success) ∧
  (length (unreached ns es) = 0 → validate ns es = Success).
Proof.
  intros Hne. split; [intros n; apply unreached_iff|].
  unfold validate. rewrite nodesWithEmptyTarget_unreached.
  rewrite decide_False by (by destruct ns).
  case_decide as Hmany.
  - split; [done|]. split; intros; lia.
  - split; [|done]. split; [discriminate|lia].
Qed.

Lemma validate_entry_points_witness :
  validate [sampleNode "A"; sampleNode "B"]
           [edgeBetween "A" "B"; edgeBetween "B" "A"] = Success ∧
  validate [sampleNode "A"; sampleNode "B"; sampleNode "C"]
           [edgeBetween "A" "B"; edgeBetween "B" "C"] = Success ∧
  validate [sampleNode "A"; sampleNode "B"; sampleNode "C"]
           [edgeBetween "A" "B"] = MultipleEntryPoints.
Proof.
  split; [|split].
  - destruct (validate_entry_points [sampleNode "A"; sampleNode "B"]
                [edgeBetween "A" "B"; edgeBetween "B" "A"])
      as (_ & _ & _ & Hnone); [done|].
    apply Hnone. reflexivity.
  - destruct (validate_entry_points
                [sampleNode "A"; sampleNode "B"; sampleNode "C"]
                [edgeBetween "A" "B"; edgeBetween "B" "C"])
      as (_ & _ & Hone & _); [done|].
    apply Hone. reflexivity.
  - destruct (validate_entry_points
                [sampleNode "A"; sampleNode "B"; sampleNode "C"]
                [edgeBetween "A" "B"])
      as (_ & Hmany & _); [done|].
    apply Hmany. vm_compute. lia.
Defined.

(** C8. With no nodes, [onSave] raises the [EmptyFlow] error, whatever the
    edges are, and nothing else: no success is reported and the state is
    otherwise as before. *)
Theorem save_empty_flow (s : FlowBuilder) :
  nodes s = [] →
  validate (nodes s) (edges s) = EmptyFlow ∧
  onSave s = toast EmptyFlow s ∧
  Toast.level EmptyFlow = Toast.error ∧
  EmptyFlow ≠ Success ∧ EmptyFlow ≠ MultipleEntryPoints.
Proof.
  intros Hnil. unfold onSave, validate. rewrite Hnil. done.
Qed.

Lemma save_empty_flow_witness :
  nodes danglingEdges = [] ∧
  toasts (onSave danglingEdges) = [EmptyFlow].
Proof.
  split; [reflexivity|].
  destruct (save_empty_flow danglingEdges) as (_ & -> & _); reflexivity.
Defined.

(** * Further properties of the component *)

(** ** Composition of the history operations *)

Lemma redoTimes_spec k : ∀ s,
  historyIndexRef s + k < length (historyRef s) →
  ∃ s', redoTimes k s = Some s' ∧
    historyRef s' = historyRef s ∧
    historyIndexRef s' = historyIndexRef s + k ∧
    toasts s' = toasts s ∧
    (0 < k →
       historyRef s !! (historyIndexRef s + k) = Some (live s') ∧
       selectedNode s' = None ∧ isUndoRedoAction s' = true).
Proof.
  induction k as [|k IH]; intros s Hlt.
  - exists s. cbn. repeat split; try done; lia.
  - cbn. destruct (redo_moves s) as (s1 & -> & Hh1 & Hi1 & Hl1 & Hs1 & Hg1 & Ht1); [lia|].
    cbn. destruct (IH s1) as (s' & Hrun & Hh & Hi & Ht & Hlive);
      [rewrite Hh1, Hi1; lia|].
    exists s'. split; [done|]. split; [congruence|]. split; [lia|].
    split; [congruence|]. intros _.
    destruct (decide (k = 0)) as [->|Hk].
    + cbn in Hrun. injection Hrun as <-. split; [|done].
      rewrite <- Hl1. f_equal; lia.
    + destruct Hlive as (Hl & Hs & Hg); [lia|]. split; [|done].
      rewrite <- Hl, Hh1, Hi1. f_equal; lia.
Qed.

(** X1. Undo and redo are inverse on the cursor: [k] undos that all have an
    entry to go back to, followed by [k] redos, bring the cursor back to
    where it was and make the snapshot under it the live graph, without
    touching the entries or the notifications. *)
Theorem undo_redo_round_trip (k : nat) (s : FlowBuilder) :
  0 < k ≤ historyIndexRef s →
  historyIndexRef s < length (historyRef s) →
  ∃ s1 s2, undoTimes k s = Some s1 ∧ redoTimes k s1 = Some s2 ∧
    historyIndexRef s1 = historyIndexRef s - k ∧
    historyIndexRef s2 = historyIndexRef s ∧
    historyRef s2 = historyRef s ∧
    current s2 = current s ∧
    current s2 = Some (live s2) ∧
    toasts s2 = toasts s.
Proof.
  intros Hk Hlt.
  destruct (undoTimes_spec k s Hlt) as (s1 & Hu & Hh1 & Hi1 & Ht1 & _ & _).
  destruct (redoTimes_spec k s1) as (s2 & Hr & Hh2 & Hi2 & Ht2 & Hlive);
    [rewrite Hh1, Hi1; lia|].
  destruct Hlive as (Hl & _); [lia|].
  exists s1, s2. split; [done|]. split; [done|]. split; [done|].
  assert (historyIndexRef s2 = historyIndexRef s) as Hback by lia.
  split; [done|]. split; [congruence|].
  unfold current. rewrite Hback, Hh2, Hh1. split; [done|]. split; [|congruence].
  rewrite <- Hl, Hh1. f_equal; lia.
Qed.

Lemma undo_redo_round_trip_witness :
  ∃ s1 s2, undoTimes 1 afterUndo = Some s1 ∧ redoTimes 1 s1 = Some s2 ∧
    historyIndexRef s2 = 1 ∧ live s2 = Snapshot.mk [sampleNode "a"] [].
Proof.
  destruct (undo_redo_round_trip 1 afterUndo) as (s1 & s2 & Hu & Hr & _ & Hi & _ & _ & Hl & _);
    [cbn; lia|cbn; lia|].
  exists s1, s2. split; [exact Hu|]. split; [exact Hr|].
  vm_compute in Hu. injection Hu as <-.
  vm_compute in Hr. injection Hr as <-. split; reflexivity.
Defined.

Lemma pushHistory_shape newNodes newEdges s :
  isUndoRedoAction s = false →
  historyIndexRef s < length (historyRef s) →
  let s' := pushHistory newNodes newEdges s in
  let shift := if decide (MAX_HISTORY ≤ historyIndexRef s + 1) then 1 else 0 in
  length (historyRef s') = historyIndexRef s + 2 - shift ∧
  historyIndexRef s' = historyIndexRef s + 1 - shift ∧
  (∀ j, shift ≤ j ≤ historyIndexRef s →
     historyRef s' !! (j - shift) = historyRef s !! j).
Proof.
  intros Hg Hlt. cbn zeta. unfold pushHistory, jsonClone. rewrite Hg. cbn.
  set (pre := take (historyIndexRef s + 1) (historyRef s)).
  assert (length pre = historyIndexRef s + 1) as Hpre
    by (subst pre; rewrite length_take; lia).
  assert (∀ j, j ≤ historyIndexRef s → pre !! j = historyRef s !! j) as Hsame
    by (intros j Hj; subst pre; apply lookup_take_lt; lia).
  unfold MAX_HISTORY in *.
  destruct (decide (50 < length (pre ++ [Snapshot.mk newNodes newEdges])))
    as [Hcap|Hcap]; rewrite length_app in Hcap; cbn in Hcap.
  - rewrite decide_True by lia. rewrite length_drop, length_app. cbn.
    split; [lia|]. split; [lia|]. intros j Hj.
    rewrite lookup_drop, lookup_app_l by lia.
    replace (1 + (j - 1)) with j by lia. apply Hsame. lia.
  - rewrite decide_False by lia. rewrite length_app. cbn.
    split; [lia|]. split; [lia|]. intros j Hj.
    rewrite lookup_app_l by lia. replace (j - 0) with j by lia.
    apply Hsame. lia.
Qed.

(** X2. A commit that is recorded rewrites nothing of the past: every entry
    up to the cursor is kept, in order, everything after the cursor is cut,
    and the new snapshot comes last with the cursor on it.  The oldest entry
    is evicted, shifting the others down by one, exactly when the cursor was
    at index 49 or beyond. *)
Theorem commit_keeps_past (newNodes : list Node.t) (newEdges : list Edge.t)
    (s : FlowBuilder) :
  isUndoRedoAction s = false →
  historyIndexRef s < length (historyRef s) →
  let s' := pushHistory newNodes newEdges s in
  let shift := if decide (MAX_HISTORY ≤ historyIndexRef s + 1) then 1 else 0 in
  length (historyRef s') = historyIndexRef s + 2 - shift ∧
  historyIndexRef s' = historyIndexRef s + 1 - shift ∧
  (∀ j, shift ≤ j ≤ historyIndexRef s →
     historyRef s' !! (j - shift) = historyRef s !! j) ∧
  current s' = Some (Snapshot.mk newNodes newEdges).
Proof.
  intros Hg Hlt. cbn zeta.
  destruct (pushHistory_shape newNodes newEdges s Hg Hlt) as (Hlen & Hidx & Hpast).
  split; [done|]. split; [done|]. split; [done|].
  by apply pushHistory_current.
Qed.

(** The undo that follows a recorded commit, the commit being made in a
    state [s0] that shares its history with [s]. *)
Lemma pushHistory_then_undo newNodes newEdges s s0 :
  historyRef s0 = historyRef s → historyIndexRef s0 = historyIndexRef s →
  isUndoRedoAction s0 = false →
  historyIndexRef s < length (historyRef s) →
  ∃ s'', undo (pushHistory newNodes newEdges s0) = Some s'' ∧
    current s = Some (live s'') ∧
    current s'' = current s ∧
    historyRef s'' = historyRef (pushHistory newNodes newEdges s0) ∧
    selectedNode s'' = None ∧ toasts s'' = toasts s0.
Proof.
  intros Hh0 Hi0 Hg Hlt.
  assert (current s0 = current s) as Hcur0 by (unfold current; congruence).
  rewrite <- Hh0, <- Hi0 in Hlt. rewrite <- Hcur0. clear Hh0 Hi0 Hcur0.
  destruct (pushHistory_shape newNodes newEdges s0 Hg Hlt) as (Hlen & Hidx & Hpast).
  set (s' := pushHistory newNodes newEdges s0) in *.
  set (shift := if decide (MAX_HISTORY ≤ historyIndexRef s0 + 1) then 1 else 0) in *.
  assert (shift ≤ 1 ∧ shift ≤ historyIndexRef s0) as [Hshift Hshift'].
  { clear. subst shift. unfold MAX_HISTORY.
    destruct (decide (50 ≤ historyIndexRef s0 + 1)); lia. }
  destruct (undo_moves s') as (s'' & Hu & Hh & Hi & Hl & Hsel & _ & Ht); [lia|].
  exists s''. split; [done|].
  assert (historyRef s' !! (historyIndexRef s' - 1) = current s0) as Hcur.
  { unfold current. rewrite <- (Hpast (historyIndexRef s0)) by lia.
    f_equal. lia. }
  split; [congruence|]. split; [|split; [done|split; [done|]]].
  - unfold current at 1. rewrite Hh, Hi. exact Hcur.
  - rewrite Ht. subst s'.
    by destruct (pushHistory_live newNodes newEdges s0) as (_ & _ & _ & ->).
Qed.

(** X3. After a recorded commit there is nothing to redo, and one undo
    goes back to the snapshot that was under the cursor before the commit,
    which becomes the live graph. *)
Theorem commit_then_undo (newNodes : list Node.t) (newEdges : list Edge.t)
    (s : FlowBuilder) :
  isUndoRedoAction s = false →
  historyIndexRef s < length (historyRef s) →
  let s' := pushHistory newNodes newEdges s in
  redo s' = Some s' ∧
  ∃ s'', undo s' = Some s'' ∧
    current s = Some (live s'') ∧
    current s'' = current s ∧
    historyRef s'' = historyRef s' ∧
    selectedNode s'' = None.
Proof.
  intros Hg Hlt. cbn zeta. split.
  - destruct (pushHistory_shape newNodes newEdges s Hg Hlt) as (_ & Hidx & _).
    apply redo_at_newest.
    destruct (pushHistory_shape newNodes newEdges s Hg Hlt) as (Hlen & _ & _).
    rewrite Hlen, Hidx. lia.
  - destruct (pushHistory_then_undo newNodes newEdges s s)
      as (s'' & Hu & Hl & Hc & Hh & Hs & _); try done.
    exists s''. by repeat split.
Qed.

Lemma commit_keeps_past_witness :
  current (pushHistory [sampleNode "z"] [] chain)
  = Some (Snapshot.mk [sampleNode "z"] []) ∧
  historyRef (pushHistory [sampleNode "z"] [] chain) !! 0 = Some emptyGraph.
Proof.
  assert (historyIndexRef chain < length (historyRef chain)) as Hlt
    by (vm_compute; lia).
  destruct (commit_keeps_past [sampleNode "z"] [] chain eq_refl Hlt)
    as (_ & _ & Hpast & Hcur).
  split; [exact Hcur|].
  apply (Hpast 0). vm_compute. lia.
Defined.

Lemma commit_then_undo_witness :
  ∃ s'', undo (pushHistory [sampleNode "z"] [] chain) = Some s'' ∧
         live s'' = emptyGraph.
Proof.
  assert (historyIndexRef chain < length (historyRef chain)) as Hlt
    by (vm_compute; lia).
  destruct (commit_then_undo [sampleNode "z"] [] chain eq_refl Hlt)
    as (_ & s'' & Hu & Hl & _).
  exists s''. split; [exact Hu|].
  change (Some emptyGraph = Some (live s'')) in Hl. congruence.
Defined.

(** ** The component as a whole *)

Lemma history_inv_same s1 s2 :
  historyRef s2 = historyRef s1 → historyIndexRef s2 = historyIndexRef s1 →
  history_inv s1 → history_inv s2.
Proof. unfold history_inv. by intros -> ->. Qed.

Lemma pushHistory_inv_on newNodes newEdges s1 s2 :
  historyRef s2 = historyRef s1 → historyIndexRef s2 = historyIndexRef s1 →
  history_inv s1 → history_inv (pushHistory newNodes newEdges s2).
Proof. intros Hh Hi Hinv. by eapply pushHistory_inv, history_inv_same. Qed.

Lemma handleKeyDown_inv event s :
  history_inv s →
  ∃ prevented s', handleKeyDown event s = Some (prevented, s') ∧ history_inv s'.
Proof.
  intros Hinv. unfold handleKeyDown.
  destruct (undo_inv s Hinv) as (su & Hu & Hinvu & _).
  destruct (_ && _ && negb _).
  - rewrite Hu. cbn. destruct (redo_inv su Hinvu) as (sr & Hr & Hinvr & _).
    destruct (_ || _); [|eauto]. destruct (negb _); [|eauto].
    rewrite Hr. cbn. eauto.
  - cbn. destruct (redo_inv s Hinv) as (sr & Hr & Hinvr & _).
    destruct (_ || _); [|eauto]. destruct (negb _); [|eauto].
    rewrite Hr. cbn. eauto.
Qed.

Section Whole.
Variable getEdgeId : Connection.t → string.
Variable applyNodeChanges : list NodeChange.t → list Node.t → list Node.t.
Variable applyEdgeChanges : list EdgeChange.t → list Edge.t → list Edge.t.

Lemma dispatch_inv e s :
  history_inv s →
  ∃ s', dispatch getEdgeId applyNodeChanges applyEdgeChanges e s = Some s' ∧
        history_inv s'.
Proof.
  intros Hinv. destruct e; cbn [dispatch]; try (eexists; split; [done|]).
  - unfold onConnect. destruct (sourceHasEdge _ _); [done|].
    by eapply pushHistory_inv_on.
  - unfold onDrop. case_decide; [done|].
    destruct reactFlowInstance; [|done]. by eapply pushHistory_inv_on.
  - unfold handleNodesChange. destruct (bool_decide (Exists _ _)); [|done].
    destruct (selectedNode s) as [sel|]; [destruct (bool_decide _)|];
      eapply history_inv_same; try reflexivity; by eapply pushHistory_inv_on.
  - unfold handleEdgesChange. destruct (bool_decide (Exists _ _)); [|done].
    by eapply pushHistory_inv_on.
  - done.
  - done.
  - unfold onTextChange. by destruct (list_find _ _) as [[? ?]|].
  - done.
  - done.
  - destruct (handleKeyDown_inv event s Hinv) as (p & s' & -> & Hinv').
    cbn. eauto.
Qed.

(** X4. Whatever the user does, in whatever order, and whatever the canvas
    library's change appliers return, no handler raises and the history
    keeps [0 ≤ cursor < length ≤ 50]. *)
Theorem app_history_inv (events : list Event) :
  ∃ s, runEvents getEdgeId applyNodeChanges applyEdgeChanges events initial
       = Some s ∧ history_inv s.
Proof.
  assert (∀ s0, history_inv s0 →
            ∃ s, runEvents getEdgeId applyNodeChanges applyEdgeChanges events s0
                 = Some s ∧ history_inv s) as Hgen.
  { induction events as [|e events IH]; intros s0 Hinv; cbn; [eauto|].
    destruct (dispatch_inv e s0 Hinv) as (s1 & -> & Hinv1). cbn. by apply IH. }
  apply Hgen, initial_inv.
Qed.
End Whole.

(** ** One outgoing edge per source handle *)

Lemma outKeys_sublist es1 es2 :
  es1 `sublist_of` es2 → NoDup (outKeys es2) → NoDup (outKeys es1).
Proof.
  intros Hsub Hnd. eapply sublist_NoDup; [exact Hnd|].
  unfold outKeys. by apply fmap_sublist.
Qed.

Lemma pushHistory_entries newNodes newEdges s snap :
  snap ∈ historyRef (pushHistory newNodes newEdges s) →
  snap ∈ historyRef s ∨ snap = Snapshot.mk newNodes newEdges.
Proof.
  unfold pushHistory, jsonClone. destruct (isUndoRedoAction s); cbn; [by left|].
  intros Hin.
  assert (snap ∈ take (historyIndexRef s + 1) (historyRef s)
                   ++ [Snapshot.mk newNodes newEdges]) as Hin'.
  { case_decide; [|done]. by eapply subseteq_drop. }
  apply elem_of_app in Hin' as [Hin'|Hin'].
  - left. by eapply subseteq_take.
  - right. by apply list_elem_of_singleton in Hin'.
Qed.

Lemma pushHistory_edges_inv newNodes newEdges s :
  edges_inv s → NoDup (outKeys newEdges) →
  edges_inv (pushHistory newNodes newEdges s).
Proof.
  intros [Hlive Hhist] Hnew. split.
  - by destruct (pushHistory_live newNodes newEdges s) as (_ & -> & _).
  - intros snap Hin. apply pushHistory_entries in Hin as [Hin| ->]; [by apply Hhist|done].
Qed.

Lemma replaceWith_edges_inv i s s' :
  replaceWith i s = Some s' → edges_inv s → edges_inv s'.
Proof.
  unfold replaceWith. destruct (historyRef s !! i) as [snap|] eqn:Hsnap; [|done].
  cbn. intros [= <-] [Hlive Hhist]. split; cbn; [|done].
  apply Hhist. by eapply list_elem_of_lookup_2.
Qed.

Lemma undo_edges_inv s s' : undo s = Some s' → edges_inv s → edges_inv s'.
Proof.
  unfold undo. case_decide; [by intros [= <-]|]. apply replaceWith_edges_inv.
Qed.

Lemma redo_edges_inv s s' : redo s = Some s' → edges_inv s → edges_inv s'.
Proof.
  unfold redo. case_decide; [by intros [= <-]|]. apply replaceWith_edges_inv.
Qed.

Lemma handleKeyDown_edges_inv event s p s' :
  handleKeyDown event s = Some (p, s') → edges_inv s → edges_inv s'.
Proof.
  unfold handleKeyDown. intros Hk Hinv.
  destruct (_ && _ && negb _).
  - destruct (undo s) as [su|] eqn:Hu; [|done]. cbn in Hk.
    assert (edges_inv su) as Hinvu by (by eapply undo_edges_inv).
    destruct (_ || _); [|by injection Hk as _ <-].
    destruct (negb _); [|by injection Hk as _ <-].
    destruct (redo su) as [sr|] eqn:Hr; [|done]. cbn in Hk.
    injection Hk as _ <-. by eapply redo_edges_inv.
  - cbn in Hk. destruct (_ || _); [|by injection Hk as _ <-].
    destruct (negb _); [|by injection Hk as _ <-].
    destruct (redo s) as [sr|] eqn:Hr; [|done]. cbn in Hk.
    injection Hk as _ <-. by eapply redo_edges_inv.
Qed.

Lemma addEdge_outKeys params getEdgeId es :
  sourceHasEdge params es = false → NoDup (outKeys es) →
  NoDup (outKeys (addEdge (styledEdge getEdgeId params) es)).
Proof.
  intros Hfree Hnd. unfold addEdge, outKeys. rewrite fmap_app.
  apply NoDup_app. split; [done|]. split; [|apply NoDup_singleton].
  intros k Hk Hk'. cbn in Hk'. apply list_elem_of_singleton in Hk' as ->.
  apply list_elem_of_fmap in Hk as (e & Heq & He).
  assert (sourceHasEdge params es = true) as Hdup; [|congruence].
  apply sourceHasEdge_iff. exists e. split; [done|]. by injection Heq as <- <-.
Qed.

Section SingleOutgoing.
Variable getEdgeId : Connection.t → string.
Variable applyNodeChanges : list NodeChange.t → list Node.t → list Node.t.
Variable applyEdgeChanges : list EdgeChange.t → list Edge.t → list Edge.t.
Hypothesis applyEdgeChanges_removes :
  ∀ changes es, applyEdgeChanges changes es `sublist_of` es.

Lemma dispatch_edges_inv e s s' :
  dispatch getEdgeId applyNodeChanges applyEdgeChanges e s = Some s' →
  edges_inv s → edges_inv s'.
Proof.
  intros Hd Hinv. pose proof Hinv as [Hlive Hhist].
  destruct e; cbn [dispatch] in Hd; try (injection Hd as <-).
  - unfold onConnect. destruct (sourceHasEdge _ _) eqn:Hfree; [done|].
    assert (NoDup (outKeys (addEdge (styledEdge getEdgeId params) (edges s))))
      as Hnew by (by apply addEdge_outKeys).
    by apply pushHistory_edges_inv.
  - unfold onDrop. case_decide; [done|].
    destruct reactFlowInstance; [|done]. by apply pushHistory_edges_inv.
  - unfold handleNodesChange. destruct (bool_decide (Exists _ _)); [|done].
    assert (edges_inv (pushHistory
              (remainingNodes (removedIds changes) (nodes s))
              (remainingEdges (removedIds changes) (edges s))
              (setNodes (applyNodeChanges changes (nodes s)) s))) as Hp.
    { apply pushHistory_edges_inv; [done|].
      eapply outKeys_sublist; [apply sublist_filter|done]. }
    destruct (selectedNode s) as [sel|]; [destruct (bool_decide _)|]; exact Hp.
  - unfold handleEdgesChange.
    assert (edges_inv (setEdges (applyEdgeChanges changes (edges s)) s)) as Hs1.
    { split; [|done]. cbn.
      eapply outKeys_sublist; [apply applyEdgeChanges_removes|done]. }
    destruct (bool_decide (Exists _ _)); [|done].
    apply pushHistory_edges_inv; [done|].
    eapply outKeys_sublist; [apply sublist_filter|done].
  - done.
  - done.
  - unfold onTextChange. by destruct (list_find _ _) as [[? ?]|].
  - done.
  - done.
  - destruct (handleKeyDown event s) as [[p sk]|] eqn:Hk; [|done].
    cbn in Hd. injection Hd as <-. by eapply handleKeyDown_edges_inv.
Qed.

(** X5. As long as the library's edge-change applier only removes edges,
    every state the component reaches keeps the rule of the connection
    handler: no two edges of the live list leave the same source handle, and
    the same holds inside every snapshot of the history. *)
Theorem single_outgoing_invariant (events : list Event) (s : FlowBuilder) :
  runEvents getEdgeId applyNodeChanges applyEdgeChanges events initial = Some s →
  (∀ i j e1 e2, edges s !! i = Some e1 → edges s !! j = Some e2 →
     Edge.source e1 = Edge.source e2 →
     Edge.sourceHandle e1 = Edge.sourceHandle e2 → i = j) ∧
  (∀ snap, snap ∈ historyRef s → NoDup (outKeys (Snapshot.edges snap))).
Proof.
  assert (∀ s0, edges_inv s0 →
            runEvents getEdgeId applyNodeChanges applyEdgeChanges events s0
              = Some s → edges_inv s) as Hgen.
  { induction events as [|e events IH]; intros s0 Hinv; cbn.
    - by intros [= <-].
    - destruct (dispatch _ _ _ e s0) as [s1|] eqn:Hd; [|done]. cbn.
      apply IH. by eapply dispatch_edges_inv. }
  intros Hrun. destruct (Hgen initial) as [Hlive Hhist]; [|done|].
  { split; cbn; [constructor|]. intros snap Hin.
    apply list_elem_of_singleton in Hin as ->. constructor. }
  split; [|done]. intros i j e1 e2 H1 H2 Hs Hh.
  eapply (proj1 (NoDup_alt _) Hlive i j (Edge.source e1, Edge.sourceHandle e1)).
  - unfold outKeys. by rewrite list_lookup_fmap, H1.
  - unfold outKeys. rewrite list_lookup_fmap, H2. cbn. by rewrite Hs, Hh.
Qed.
End SingleOutgoing.

Lemma sampleApplyEdges_removes changes es :
  sampleApplyEdges changes es `sublist_of` es.
Proof. apply sublist_filter. Qed.

Lemma single_outgoing_invariant_witness :
  ∃ s, runEvents sampleEdgeId sampleApply sampleApplyEdges sampleEvents initial
       = Some s ∧
    length (edges s) = 2 ∧
    (∀ i j e1 e2, edges s !! i = Some e1 → edges s !! j = Some e2 →
       Edge.source e1 = Edge.source e2 →
       Edge.sourceHandle e1 = Edge.sourceHandle e2 → i = j).
Proof.
  eexists. split; [vm_compute; reflexivity|]. split; [reflexivity|].
  apply (single_outgoing_invariant sampleEdgeId sampleApply sampleApplyEdges
           sampleApplyEdges_removes sampleEvents).
  vm_compute. reflexivity.
Defined.

(** ** Connections, drops and removals *)

(** X6. Once a connection has been proposed, proposing it again is always
    refused: whether the first attempt was accepted or not, the source handle
    is taken afterwards, so the second attempt only raises the warning. *)
Theorem repeated_connect_refused (getEdgeId : Connection.t → string)
    (params : Connection.t) (s : FlowBuilder) :
  let s1 := onConnect getEdgeId params s in
  sourceHasEdge params (edges s1) = true ∧
  onConnect getEdgeId params s1 = toast duplicateWarning s1 ∧
  edges (onConnect getEdgeId params s1) = edges s1 ∧
  historyRef (onConnect getEdgeId params s1) = historyRef s1.
Proof.
  cbn zeta.
  assert (sourceHasEdge params (edges (onConnect getEdgeId params s)) = true) as Htaken.
  { unfold onConnect. destruct (sourceHasEdge params (edges s)) eqn:Hdup; [done|].
    destruct (pushHistory_live (nodes s)
                (addEdge (styledEdge getEdgeId params) (edges s))
                (setEdges (addEdge (styledEdge getEdgeId params) (edges s)) s))
      as (_ & -> & _).
    apply sourceHasEdge_iff. exists (styledEdge getEdgeId params).
    split; [|done]. cbn. unfold addEdge. apply elem_of_app. right. left. }
  split; [done|].
  assert (onConnect getEdgeId params (onConnect getEdgeId params s)
          = toast duplicateWarning (onConnect getEdgeId params s)) as ->
    by (unfold onConnect at 1; by rewrite Htaken).
  done.
Qed.


Lemma removedIds_nil changes :
  bool_decide (Exists isRemove changes) = true ↔ removedIds changes ≠ [].
Proof.
  rewrite bool_decide_eq_true, Exists_exists. unfold removedIds. split.
  - intros (c & Hc & Hr) Hnil.
    assert (NodeChange.id c ∈ NodeChange.id <$> filter isRemove changes) as Hin.
    { apply list_elem_of_fmap. exists c. split; [done|]. by apply list_elem_of_filter. }
    rewrite Hnil in Hin. by apply not_elem_of_nil in Hin.
  - intros Hne. destruct (filter isRemove changes) as [|c cs] eqn:Hf; [done|].
    assert (c ∈ filter isRemove changes) as Hin by (rewrite Hf; left).
    apply list_elem_of_filter in Hin as [Hr Hc]. by exists c.
Qed.


(** X8. Changes to the nodes that hold no removal (a drag, a selection, a
    resize) commit nothing: history, cursor, guard, selection, edges and
    notifications stay as they are, and the live nodes are what the library's
    applier returns. *)
Theorem handleNodesChange_no_removal
    (applyNodeChanges : list NodeChange.t → list Node.t → list Node.t)
    (changes : list NodeChange.t) (s : FlowBuilder) :
  (∀ c, c ∈ changes → NodeChange.type c ≠ "remove"%string) →
  handleNodesChange applyNodeChanges changes s
  = setNodes (applyNodeChanges changes (nodes s)) s.
Proof.
  intros Hnone. unfold handleNodesChange.
  destruct (bool_decide (Exists isRemove changes)) eqn:Hb; [|done].
  apply bool_decide_eq_true, Exists_exists in Hb as (c & Hc & Hr).
  by destruct (Hnone c Hc).
Qed.


Lemma handleNodesChange_no_removal_witness :
  handleNodesChange sampleApply
    [NodeChange.mk "position" "A"; NodeChange.mk "select" "B"] chain
  = chain.
Proof.
  rewrite handleNodesChange_no_removal; [reflexivity|].
  intros c Hc. apply elem_of_cons in Hc as [->|Hc]; [discriminate|].
  apply list_elem_of_singleton in Hc as ->. discriminate.
Defined.

(** X9. A drop is ignored, leaving the state as it is, when the drag carries
    no node type or the canvas has not initialised.  Otherwise exactly one
    node is appended after the existing ones, with the drawn identifier, the
    dragged type, the drop point in flow coordinates and the label
    "test message N" where N is one more than the number of nodes before;
    edges, selection and notifications are untouched, and when the guard is
    down the new graph is the snapshot under the cursor.  Node identifiers
    stay pairwise distinct when the drawn identifier is fresh. *)
Theorem onDrop_spec (reactFlowInstance : option (Z → Z → XYPosition.t))
    (uuidv4 : string) (event : DragEvent.t) (s : FlowBuilder) :
  let nodeType :=
    DataTransfer.getData "application/reactflow" (DragEvent.dataTransfer event) in
  let s' := onDrop reactFlowInstance uuidv4 event s in
  (nodeType = ""%string ∨ reactFlowInstance = None → s' = s) ∧
  (∀ screenToFlowPosition,
     nodeType ≠ ""%string → reactFlowInstance = Some screenToFlowPosition →
     ∃ n, nodes s' = nodes s ++ [n] ∧
       Node.id n = uuidv4 ∧ Node.type n = nodeType ∧
       Node.position n
         = screenToFlowPosition (DragEvent.clientX event) (DragEvent.clientY event) ∧
       NodeData.label (Node.data n)
         = "test message " +:+ pretty (length (nodes s) + 1) ∧
       edges s' = edges s ∧ selectedNode s' = selectedNode s ∧
       toasts s' = toasts s ∧
       (isUndoRedoAction s = false → current s' = Some (live s')) ∧
       (uuidv4 ∉ (Node.id <$> nodes s) → NoDup (Node.id <$> nodes s) →
          NoDup (Node.id <$> nodes s'))).
Proof.
  cbn zeta. unfold onDrop. split.
  - intros [Hempty|Hnone].
    + by rewrite decide_True.
    + rewrite Hnone. by case_decide.
  - intros toFlow Htype ->. rewrite decide_False by done.
    set (n := droppedNode _ _ _ _).
    destruct (pushHistory_live (nodes s ++ [n]) (edges s)
                (setNodes (nodes s ++ [n]) s)) as (Hn & He & Hs & Ht).
    exists n. rewrite Hn, He, Hs, Ht. cbn.
    repeat (split; [done|]). split.
    + intros Hg. rewrite pushHistory_current by done. unfold live.
      by rewrite Hn, He.
    + intros Hfresh Hnd. rewrite fmap_app. apply NoDup_app.
      split; [done|]. split; [|apply NoDup_singleton].
      intros i Hi Hi'. cbn in Hi'. apply list_elem_of_singleton in Hi' as ->.
      done.
Qed.

Lemma onDrop_spec_witness :
  onDrop (Some sampleToFlow) "n4" emptyDrag chain = chain ∧
  onDrop None "n4" paletteDrag chain = chain ∧
  ∃ n, nodes (onDrop (Some sampleToFlow) "n4" paletteDrag chain)
       = nodes chain ++ [n] ∧
    Node.id n = "n4"%string ∧ Node.type n = "textNode"%string ∧
    NodeData.label (Node.data n) = "test message 4"%string.
Proof.
  split; [|split].
  - apply (proj1 (onDrop_spec (Some sampleToFlow) "n4" emptyDrag chain)).
    left. reflexivity.
  - apply (proj1 (onDrop_spec None "n4" paletteDrag chain)). by right.
  - destruct (proj2 (onDrop_spec (Some sampleToFlow) "n4" paletteDrag chain)
                sampleToFlow) as (n & Hn & Hid & Hty & _ & Hlab & _);
      [discriminate|reflexivity|].
    exists n. split; [exact Hn|]. split; [exact Hid|]. split; [exact Hty|].
    rewrite Hlab. vm_compute. reflexivity.
Defined.

(** X10. The palette and the canvas agree on the payload: what
    [onDragStart] stores under "application/reactflow" is what [onDrop]
    reads back, other formats of the drag are left alone, and so dropping a
    drag that started on a card of any non-empty type appends a node of that
    type.  Every card of the palette has a non-empty type that the canvas
    has a renderer for. *)
Theorem palette_drag_drop (nodeType : string) (event : DragEvent.t)
    (screenToFlowPosition : Z → Z → XYPosition.t) (uuidv4 : string)
    (s : FlowBuilder) :
  nodeType ≠ ""%string →
  DataTransfer.getData "application/reactflow"
    (DragEvent.dataTransfer (onDragStart nodeType event)) = nodeType ∧
  (∀ format, format ≠ "application/reactflow"%string →
     DataTransfer.getData format
       (DragEvent.dataTransfer (onDragStart nodeType event))
     = DataTransfer.getData format (DragEvent.dataTransfer event)) ∧
  nodes (onDrop (Some screenToFlowPosition) uuidv4
           (onDragStart nodeType event) s)
  = nodes s
      ++ [droppedNode uuidv4 nodeType
            (screenToFlowPosition (DragEvent.clientX event)
                                  (DragEvent.clientY event))
            (nodes s)] ∧
  (∀ card, card ∈ NODE_TYPES →
     NodeType.type card ≠ ""%string ∧ NodeType.type card ∈ nodeTypes).
Proof.
  intros Htype.
  assert (DataTransfer.getData "application/reactflow"
            (DragEvent.dataTransfer (onDragStart nodeType event)) = nodeType)
    as Hget.
  { unfold onDragStart, DataTransfer.getData, DataTransfer.setData. cbn.
    by rewrite lookup_insert_eq. }
  split; [done|]. split.
  - intros format Hne. unfold onDragStart, DataTransfer.getData,
      DataTransfer.setData. cbn. by rewrite lookup_insert_ne.
  - split.
    + unfold onDrop. rewrite Hget, decide_False by done.
      by destruct (pushHistory_live
           (nodes s ++ [droppedNode uuidv4 nodeType
              (screenToFlowPosition
                 (DragEvent.clientX (onDragStart nodeType event))
                 (DragEvent.clientY (onDragStart nodeType event))) (nodes s)])
           (edges s)
           (setNodes (nodes s ++ [droppedNode uuidv4 nodeType
              (screenToFlowPosition
                 (DragEvent.clientX (onDragStart nodeType event))
                 (DragEvent.clientY (onDragStart nodeType event))) (nodes s)]) s))
        as (-> & _).
    + intros card Hcard. apply list_elem_of_singleton in Hcard as ->.
      split; [discriminate|]. cbn. left.
Qed.

Lemma palette_drag_drop_witness :
  length (nodes (onDrop (Some sampleToFlow) "n9"
                   (onDragStart "textNode" emptyDrag) initial)) = 1.
Proof.
  destruct (palette_drag_drop "textNode" emptyDrag sampleToFlow "n9" initial)
    as (_ & _ & -> & _); [discriminate|reflexivity].
Defined.

(** Decide the comparisons of the pressed key with the three shortcut keys. *)
Ltac key_cases :=
  repeat match goal with
  | |- context [bool_decide (?a = ?b)] =>
      first [ rewrite (bool_decide_eq_true_2 (a = b)) by reflexivity
            | rewrite (bool_decide_eq_false_2 (a = b)) by discriminate ]
  end.

Ltac destruct_one_bool :=
  match goal with
  | |- context [if ?b then _ else _] => is_var b; destruct b
  | |- context [?b && _] => is_var b; destruct b
  | |- context [?b || _] => is_var b; destruct b
  | |- context [negb ?b] => is_var b; destruct b
  end.

(** X11. The keyboard handler does nothing, and leaves the browser's default
    in place, when the focus is in a text area or Ctrl is not held.
    Otherwise Ctrl with "z" undoes (Shift or not), Ctrl with "y" and Ctrl
    with Shift and "Z" redo, each preventing the default, and every other key
    is ignored; in particular Ctrl with "Z" without Shift does nothing, and
    no key event runs both an undo and a redo. *)
Theorem handleKeyDown_spec (event : KeyboardEvent.t) (s : FlowBuilder) :
  let ctrl := KeyboardEvent.ctrlKey event in
  let shift := KeyboardEvent.shiftKey event in
  let key := KeyboardEvent.key event in
  let typing := KeyboardEvent.inTextarea event in
  (typing = true ∨ ctrl = false → handleKeyDown event s = Some (false, s)) ∧
  (ctrl = true → typing = false → key = "z"%string →
     handleKeyDown event s = (λ s', (true, s')) <$> undo s) ∧
  (ctrl = true → typing = false →
     key = "y"%string ∨ (shift = true ∧ key = "Z"%string) →
     handleKeyDown event s = (λ s', (true, s')) <$> redo s) ∧
  (key ≠ "z"%string → key ≠ "y"%string →
     ¬ (shift = true ∧ key = "Z"%string) →
     handleKeyDown event s = Some (false, s)).
Proof.
  cbn zeta. unfold handleKeyDown.
  destruct event as [ctrl shift key typing]. cbn.
  split; [|split; [|split]].
  - intros [-> | ->];
      destruct (bool_decide (key = "z"%string)), (bool_decide (key = "y"%string)),
               (bool_decide (key = "Z"%string)); by repeat (destruct_one_bool; cbn).
  - intros -> -> ->. key_cases. cbn. destruct (undo s); cbn; [|done].
    by destruct shift.
  - intros -> -> [-> | [-> ->]]; key_cases; cbn; by destruct (redo s).
  - intros Hz Hy HZ.
    rewrite (bool_decide_eq_false_2 _ Hz), (bool_decide_eq_false_2 _ Hy).
    rewrite !andb_false_r. cbn.
    destruct ctrl, shift; cbn; try done.
    rewrite bool_decide_eq_false_2; [done|]. intros ->. by apply HZ.
Qed.

Lemma handleKeyDown_spec_witness :
  (∃ s', handleKeyDown ctrlZ afterUndo = Some (true, s') ∧ historyIndexRef s' = 0) ∧
  (∃ s', handleKeyDown ctrlY afterUndo = Some (true, s') ∧ historyIndexRef s' = 2) ∧
  handleKeyDown (KeyboardEvent.mk true false "z" true) afterUndo
  = Some (false, afterUndo).
Proof.
  destruct (handleKeyDown_spec ctrlZ afterUndo) as (_ & Hz & _).
  destruct (handleKeyDown_spec ctrlY afterUndo) as (_ & _ & Hy & _).
  destruct (handleKeyDown_spec (KeyboardEvent.mk true false "z" true) afterUndo)
    as (Hno & _).
  split; [|split].
  - eexists. rewrite Hz by reflexivity. split; reflexivity.
  - eexists. rewrite Hy; [split; reflexivity|reflexivity|reflexivity|by left].
  - apply Hno. by left.
Defined.

(** ** More on validation *)

Lemma length_filter_mono {A} (P Q : A → Prop)
    `{!∀ x, Decision (P x), !∀ x, Decision (Q x)} (l : list A) :
  (∀ x, P x → Q x) → length (filter P l) ≤ length (filter Q l).
Proof.
  intros HPQ. rewrite <- (list_filter_filter_l P Q l HPQ). apply length_filter.
Qed.

Lemma length_filter_fmap {A B} (f : A → B) (P : B → Prop) (Q : A → Prop)
    `{!∀ y, Decision (P y), !∀ x, Decision (Q x)} (l : list A) :
  (∀ x, P (f x) ↔ Q x) →
  length (filter P (f <$> l)) = length (filter Q l).
Proof.
  intros HPQ. induction l as [|a l IH]; [done|].
  rewrite fmap_cons, !filter_cons. destruct (decide (P (f a))) as [HP|HP].
  - rewrite decide_True by (by apply HPQ). cbn. by rewrite IH.
  - rewrite decide_False by (by rewrite <- HPQ). done.
Qed.

Lemma validate_Success_iff ns es :
  validate ns es = Success ↔ ns ≠ [] ∧ length (nodesWithEmptyTarget ns es) ≤ 1.
Proof.
  unfold validate. destruct ns as [|n ns].
  - cbn. split; [discriminate|]. by intros [? _].
  - rewrite decide_False by done. case_decide as Hmany.
    + split; [discriminate|]. intros [_ ?]. lia.
    + split; [|done]. intros _. split; [done|lia].
Qed.

(** X12. More incoming edges never invalidate a flow: if every target of
    [es] is also a target of [es'] and the nodes validate with [es], they
    validate with [es'].  In particular a flow that validates still does
    after any connection, accepted or refused. *)
Theorem validate_monotone (ns : list Node.t) (es es' : list Edge.t) :
  (∀ e, e ∈ es → ∃ e', e' ∈ es' ∧ Edge.target e' = Edge.target e) →
  validate ns es = Success →
  validate ns es' = Success ∧
  ∀ getEdgeId params s,
    nodes s = ns → edges s = es →
    validate (nodes (onConnect getEdgeId params s))
             (edges (onConnect getEdgeId params s)) = Success.
Proof.
  assert (∀ es1 es2,
            (∀ e, e ∈ es1 → ∃ e', e' ∈ es2 ∧ Edge.target e' = Edge.target e) →
            validate ns es1 = Success → validate ns es2 = Success) as Hmono.
  { intros es1 es2 Hsub. rewrite !validate_Success_iff. intros [Hne Hlen].
    split; [done|]. etrans; [|exact Hlen].
    apply length_filter_mono. intros n Hn Hin. apply Hn.
    unfold nodesWithIncomingEdge in *. rewrite elem_of_list_to_set in *.
    apply list_elem_of_fmap in Hin as (e & -> & He).
    destruct (Hsub e He) as (e' & He' & <-). apply list_elem_of_fmap. eauto. }
  intros Hsub Hok. split; [by eapply Hmono|].
  intros getEdgeId params s <- <-. unfold onConnect.
  destruct (sourceHasEdge _ _); [done|].
  destruct (pushHistory_live (nodes s)
              (addEdge (styledEdge getEdgeId params) (edges s))
              (setEdges (addEdge (styledEdge getEdgeId params) (edges s)) s))
    as (-> & -> & _).
  cbn. eapply Hmono; [|exact Hok].
  intros e He. exists e. split; [|done]. unfold addEdge. apply elem_of_app. by left.
Qed.

Lemma validate_monotone_witness :
  validate (nodes chain) (edges chain ++ [edgeBetween "C" "A"]) = Success.
Proof.
  apply (validate_monotone (nodes chain) (edges chain)
           (edges chain ++ [edgeBetween "C" "A"])).
  - intros e He. exists e. split; [|reflexivity]. apply elem_of_app. by left.
  - reflexivity.
Defined.

Lemma size_list_to_set_le (l : list string) :
  size (list_to_set (C:=gset string) l) ≤ length l.
Proof.
  unfold size, set_size. cbn. apply submseteq_length, NoDup_submseteq.
  - apply NoDup_elements.
  - intros x Hx. apply elem_of_elements in Hx. by apply elem_of_list_to_set in Hx.
Qed.

(** X13. With pairwise distinct node identifiers, a flow that validates has
    at least as many edges as nodes less one: every node but one must be the
    target of an edge of its own. *)
Theorem validate_needs_edges (ns : list Node.t) (es : list Edge.t) :
  NoDup (Node.id <$> ns) →
  validate ns es = Success →
  length ns ≤ length es + 1.
Proof.
  intros Hnd [Hne Hlen]%validate_Success_iff.
  set (S := nodesWithIncomingEdge es) in *.
  set (reached := filter (λ n, ¬ (Node.id n ∉ S)) ns).
  assert (length ns = length (nodesWithEmptyTarget ns es) + length reached) as Hsplit.
  { rewrite <- length_app. symmetry. apply Permutation_length.
    apply (filter_app_complement (λ n, Node.id n ∉ S)). }
  assert (length reached ≤ size S) as Hreached.
  { rewrite <- (length_fmap Node.id reached).
    rewrite <- (size_list_to_set (C:=gset string) (Node.id <$> reached)).
    - apply subseteq_size. intros i Hi. apply elem_of_list_to_set in Hi.
      apply list_elem_of_fmap in Hi as (n & -> & Hn).
      apply list_elem_of_filter in Hn as [Hn _].
      by destruct (decide (Node.id n ∈ S)).
    - eapply sublist_NoDup; [exact Hnd|]. apply fmap_sublist, sublist_filter. }
  assert (size S ≤ length es) as Hsize.
  { subst S. unfold nodesWithIncomingEdge.
    etrans; [apply size_list_to_set_le|]. by rewrite length_fmap. }
  fold S in Hlen. lia.
Qed.

Lemma validate_needs_edges_witness :
  length (nodes chain) ≤ length (edges chain) + 1.
Proof.
  apply (validate_needs_edges (nodes chain) (edges chain)); [|reflexivity].
  apply (bool_decide_unpack _). vm_compute. exact I.
Defined.

(** X14. Editing text never changes whether the flow can be saved: the
    outcome of validation is the same before and after [onTextChange]. *)
Theorem text_edit_keeps_validation (newText : string) (s : FlowBuilder) :
  validate (nodes (onTextChange newText s)) (edges (onTextChange newText s))
  = validate (nodes s) (edges s).
Proof.
  assert (nodes (onTextChange newText s)
          = updateNodes (selectedNode s) newText (nodes s) ∧
          edges (onTextChange newText s) = edges s) as [-> ->]
    by (unfold onTextChange; by destruct (list_find _ _) as [[? ?]|]).
  unfold validate, updateNodes, nodesWithEmptyTarget.
  rewrite length_fmap.
  rewrite (length_filter_fmap _ _
             (λ node, Node.id node ∉ nodesWithIncomingEdge (edges s))); [done|].
  intros n. by case_decide.
Qed.

(** ** Text edits *)

Lemma updateNodes_same_selection sel sel' t nds :
  (∀ n, isSelected sel n ↔ isSelected sel' n) →
  updateNodes sel t nds = updateNodes sel' t nds.
Proof.
  intros Hsame. unfold updateNodes. apply list_fmap_ext. intros _ n _.
  apply decide_ext, Hsame.
Qed.

Lemma updateNodes_twice sel t1 t2 nds :
  updateNodes sel t2 (updateNodes sel t1 nds) = updateNodes sel t2 nds.
Proof.
  unfold updateNodes. rewrite <- list_fmap_compose.
  apply list_fmap_ext. intros _ n _. cbn.
  destruct (decide (isSelected sel n)) as [Hn|Hn].
  - by rewrite decide_True.
  - by rewrite decide_False.
Qed.

Lemma list_find_updateNodes sel t nds :
  list_find (isSelected sel) (updateNodes sel t nds)
  = prod_map id (withLabel t) <$> list_find (isSelected sel) nds.
Proof.
  unfold updateNodes. rewrite list_find_fmap.
  rewrite (list_find_ext _ (isSelected sel)).
  - destruct (list_find (isSelected sel) nds) as [[i n]|] eqn:Hfind; [|done].
    apply list_find_Some in Hfind as (_ & Hn & _). cbn.
    by rewrite decide_True.
  - intros n. cbn. by case_decide.
Qed.

(** The selection [onTextChange] leaves behind. *)
Lemma onTextChange_unfold t s :
  onTextChange t s
  = setNodes (updateNodes (selectedNode s) t (nodes s))
      (setSelectedNode
         (match list_find (isSelected (selectedNode s)) (nodes s) with
          | Some (_, n) => Some (withLabel t n)
          | None => selectedNode s
          end) s).
Proof.
  unfold onTextChange. rewrite list_find_updateNodes.
  destruct (list_find (isSelected (selectedNode s)) (nodes s)) as [[i n]|];
    cbn; [done|]. by destruct s.
Qed.

Lemma onTextChange_selection t s :
  ∀ n, isSelected (selectedNode (onTextChange t s)) n
       ↔ isSelected (selectedNode s) n.
Proof.
  intros n. rewrite onTextChange_unfold. cbn.
  destruct (list_find (isSelected (selectedNode s)) (nodes s)) as [[i n0]|] eqn:Hfind;
    [|done].
  apply list_find_Some in Hfind as (_ & Hn0 & _).
  unfold isSelected in *. cbn. by rewrite <- Hn0.
Qed.

(** X15. Only the last text counts: two text changes in a row leave exactly
    the state the second one alone would have left, whatever was typed in
    between. *)
Theorem text_change_last_wins (t1 t2 : string) (s : FlowBuilder) :
  onTextChange t2 (onTextChange t1 s) = onTextChange t2 s.
Proof.
  rewrite (onTextChange_unfold t2 (onTextChange t1 s)).
  rewrite (updateNodes_same_selection _ (selectedNode s))
    by apply onTextChange_selection.
  rewrite (list_find_ext _ (isSelected (selectedNode s)))
    by apply onTextChange_selection.
  rewrite (onTextChange_unfold t2 s).
  rewrite (onTextChange_unfold t1 s).
  unfold setNodes, setSelectedNode.
  cbn [nodes edges selectedNode historyRef historyIndexRef isUndoRedoAction toasts].
  rewrite updateNodes_twice, list_find_updateNodes.
  by destruct (list_find (isSelected (selectedNode s)) (nodes s)) as [[i n]|].
Qed.

Lemma onTextChange_history t s :
  historyRef (onTextChange t s) = historyRef s ∧
  historyIndexRef (onTextChange t s) = historyIndexRef s ∧
  isUndoRedoAction (onTextChange t s) = isUndoRedoAction s ∧
  toasts (onTextChange t s) = toasts s ∧
  edges (onTextChange t s) = edges s.
Proof. by rewrite onTextChange_unfold. Qed.

Lemma replaceWith_same i s1 s2 :
  historyRef s1 = historyRef s2 → toasts s1 = toasts s2 →
  replaceWith i s1 = replaceWith i s2.
Proof. unfold replaceWith. by intros -> ->. Qed.

(** X16. Text edits are not part of the history: an undo or a redo that
    moves the cursor gives the same state whether or not text was edited
    just before, so the edit is gone; and with nothing to undo (or redo) the
    edited state is returned as it is. *)
Theorem text_edit_lost_on_undo (newText : string) (s : FlowBuilder) :
  (0 < historyIndexRef s →
     undo (onTextChange newText s) = undo s) ∧
  (historyIndexRef s + 1 < length (historyRef s) →
     redo (onTextChange newText s) = redo s) ∧
  (historyIndexRef s = 0 →
     undo (onTextChange newText s) = Some (onTextChange newText s)) ∧
  (historyIndexRef s = length (historyRef s) - 1 →
     redo (onTextChange newText s) = Some (onTextChange newText s)).
Proof.
  destruct (onTextChange_history newText s) as (Hh & Hi & _ & Ht & _).
  split; [|split; [|split]].
  - intros Hpos. unfold undo. rewrite Hi.
    rewrite !decide_False by lia. by apply replaceWith_same.
  - intros Hnext. unfold redo. rewrite Hi, Hh.
    rewrite !decide_False by lia. by apply replaceWith_same.
  - intros Hz. apply undo_at_oldest. congruence.
  - intros Hlast. apply redo_at_newest. congruence.
Qed.

Lemma text_edit_lost_on_undo_witness :
  nodes (onTextChange "hello" editing) ≠ nodes editing ∧
  undo (onTextChange "hello" editing) = undo editing ∧
  redo (onTextChange "hello" editing) = redo editing.
Proof.
  split; [discriminate|].
  destruct (text_edit_lost_on_undo "hello" editing) as (Hu & Hr & _).
  split; [apply Hu|apply Hr]; vm_compute; lia.
Defined.

Lemma orElse_empty t : orElse t "" = t.
Proof. unfold orElse. by case_decide. Qed.

(** X17. The settings panel follows the typing: when the selected node is
    on the canvas, after [onTextChange] the text area shows exactly the new
    text, and the selection is the updated node of the live list, same id,
    new label, whose card shows the new text, or the placeholder when the
    text is empty.  When no node of the list carries the selected id any more,
    the handler changes nothing at all, so the text area keeps the old
    label. *)
Theorem text_area_in_sync (newText : string) (s : FlowBuilder) (sel : Node.t) :
  selectedNode s = Some sel →
  (Node.id sel ∈ (Node.id <$> nodes s) →
     Sidebar (selectedNode (onTextChange newText s)) = SettingsPanel newText ∧
     ∃ n, selectedNode (onTextChange newText s) = Some n ∧
       n ∈ nodes (onTextChange newText s) ∧
       Node.id n = Node.id sel ∧
       NodeData.label (Node.data n) = newText ∧
       textNodeBody (Node.data n)
         = if decide (newText = ""%string) then "Type your message..."%string
           else newText) ∧
  (Node.id sel ∉ (Node.id <$> nodes s) →
     onTextChange newText s = s ∧
     Sidebar (selectedNode (onTextChange newText s)) = Sidebar (Some sel)).
Proof.
  intros Hsel. split.
  - intros Hin. apply list_elem_of_fmap in Hin as (m & Hid & Hm).
    assert (isSelected (selectedNode s) m) as Hmsel
      by (unfold isSelected; rewrite Hsel; cbn; by rewrite Hid).
    destruct (list_find_elem_of (isSelected (selectedNode s)) (nodes s) m Hm Hmsel)
      as [[i n0] Hfind].
    pose proof Hfind as (Hi & Hn0 & _)%list_find_Some.
    rewrite onTextChange_unfold, Hfind. cbn.
    split; [by rewrite orElse_empty|].
    exists (withLabel newText n0). split; [done|]. split.
    + apply (list_elem_of_lookup_2 _ i). unfold updateNodes.
      rewrite list_lookup_fmap, Hi. cbn. by rewrite decide_True.
    + split; [|done]. cbn. unfold isSelected in Hn0. rewrite Hsel in Hn0.
      cbn in Hn0. by injection Hn0.
  - intros Hnotin.
    assert (∀ n, n ∈ nodes s → ¬ isSelected (selectedNode s) n) as Hnone.
    { intros n Hn Hnsel. apply Hnotin. unfold isSelected in Hnsel.
      rewrite Hsel in Hnsel. cbn in Hnsel. injection Hnsel as <-.
      apply list_elem_of_fmap. eauto. }
    assert (onTextChange newText s = s) as Hsame.
    { rewrite onTextChange_unfold.
      assert (list_find (isSelected (selectedNode s)) (nodes s) = None) as ->
        by (apply list_find_None, Forall_forall; exact Hnone).
      assert (updateNodes (selectedNode s) newText (nodes s) = nodes s) as ->.
      { unfold updateNodes. rewrite <- (list_fmap_id (nodes s)) at 2.
        apply list_fmap_ext. intros i n Hn. rewrite decide_False; [done|].
        apply Hnone. by eapply list_elem_of_lookup_2. }
      by destruct s. }
    split; [done|]. by rewrite Hsame, Hsel.
Qed.

Lemma text_area_in_sync_witness :
  Sidebar (selectedNode (onTextChange "hello" editing)) = SettingsPanel "hello" ∧
  onTextChange "hello" (onNodeClick (sampleNode "gone") afterUndo)
  = onNodeClick (sampleNode "gone") afterUndo.
Proof.
  split.
  - destruct (text_area_in_sync "hello" editing (sampleNode "a") eq_refl)
      as (Hsync & _).
    apply Hsync. vm_compute. left.
  - destruct (text_area_in_sync "hello" (onNodeClick (sampleNode "gone") afterUndo)
                (sampleNode "gone") eq_refl) as (_ & Hstale).
    apply Hstale. vm_compute. intros Hin.
    apply list_elem_of_singleton in Hin. discriminate.
Defined.

(** X18. Undo takes back what was just added: in a state whose live graph
    is the snapshot under the cursor and whose guard is down, an accepted
    connection followed by one undo, and likewise a drop that creates a node
    followed by one undo, leave the live graph as it was before. *)
Theorem undo_reverts_add (s : FlowBuilder) :
  isUndoRedoAction s = false →
  historyIndexRef s < length (historyRef s) →
  current s = Some (live s) →
  (∀ getEdgeId params,
     sourceHasEdge params (edges s) = false →
     edges (onConnect getEdgeId params s)
       = edges s ++ [styledEdge getEdgeId params] ∧
     ∃ s', undo (onConnect getEdgeId params s) = Some s' ∧ live s' = live s) ∧
  (∀ screenToFlowPosition uuidv4 event,
     DataTransfer.getData "application/reactflow"
       (DragEvent.dataTransfer event) ≠ ""%string →
     length (nodes (onDrop (Some screenToFlowPosition) uuidv4 event s))
       = length (nodes s) + 1 ∧
     ∃ s', undo (onDrop (Some screenToFlowPosition) uuidv4 event s) = Some s' ∧
           live s' = live s).
Proof.
  intros Hg Hlt Hsync. split.
  - intros getEdgeId params Hfree. unfold onConnect. rewrite Hfree.
    set (newEdges := addEdge (styledEdge getEdgeId params) (edges s)).
    split.
    { by destruct (pushHistory_live (nodes s) newEdges (setEdges newEdges s))
        as (_ & -> & _). }
    destruct (pushHistory_then_undo (nodes s) newEdges s (setEdges newEdges s))
      as (s' & Hu & Hl & _); try done.
    exists s'. split; [done|]. congruence.
  - intros toFlow uuidv4 event Htype. unfold onDrop.
    rewrite decide_False by done.
    set (newNodes := nodes s ++ [_]).
    split.
    { destruct (pushHistory_live newNodes (edges s) (setNodes newNodes s))
        as (-> & _). cbn. subst newNodes. rewrite length_app. done. }
    destruct (pushHistory_then_undo newNodes (edges s) s (setNodes newNodes s))
      as (s' & Hu & Hl & _); try done.
    exists s'. split; [done|]. congruence.
Qed.

Lemma undo_reverts_add_witness :
  ∃ s', undo (onConnect sampleEdgeId (Connection.mk "a" (Some "source") "a" (Some "target"))
                (pushHistory [sampleNode "a"] [] (setNodes [sampleNode "a"] initial)))
        = Some s' ∧
    live s' = Snapshot.mk [sampleNode "a"] [].
Proof.
  destruct (undo_reverts_add
              (pushHistory [sampleNode "a"] [] (setNodes [sampleNode "a"] initial)))
    as (Hconnect & _); [reflexivity|vm_compute; lia|reflexivity|].
  destruct (Hconnect sampleEdgeId
              (Connection.mk "a" (Some "source") "a" (Some "target")))
    as (_ & s' & Hu & Hl); [reflexivity|].
  exists s'. split; [exact Hu|exact Hl].
Defined.

(** ** Notifications *)

Lemma replaceWith_toasts i s s' : replaceWith i s = Some s' → toasts s' = toasts s.
Proof.
  unfold replaceWith. destruct (historyRef s !! i); cbn; [|done]. by intros [= <-].
Qed.

Lemma undo_toasts s s' : undo s = Some s' → toasts s' = toasts s.
Proof. unfold undo. case_decide; [by intros [= <-]|]. apply replaceWith_toasts. Qed.

Lemma redo_toasts s s' : redo s = Some s' → toasts s' = toasts s.
Proof. unfold redo. case_decide; [by intros [= <-]|]. apply replaceWith_toasts. Qed.

Lemma handleKeyDown_toasts event s p s' :
  handleKeyDown event s = Some (p, s') → toasts s' = toasts s.
Proof.
  unfold handleKeyDown. intros Hk.
  destruct (_ && _ && negb _).
  - destruct (undo s) as [su|] eqn:Hu; [|done]. cbn in Hk.
    apply undo_toasts in Hu.
    destruct (_ || _); [|by injection Hk as _ <-].
    destruct (negb _); [|by injection Hk as _ <-].
    destruct (redo su) as [sr|] eqn:Hr; [|done]. cbn in Hk.
    injection Hk as _ <-. apply redo_toasts in Hr. congruence.
  - cbn in Hk. destruct (_ || _); [|by injection Hk as _ <-].
    destruct (negb _); [|by injection Hk as _ <-].
    destruct (redo s) as [sr|] eqn:Hr; [|done]. cbn in Hk.
    injection Hk as _ <-. by apply redo_toasts.
Qed.

(** X19. Notifications are only ever appended, at most one per event, and
    only two events raise one: a connection that is refused raises the
    duplicate warning, and a save raises the outcome of validation.  Every
    other event, an accepted connection included, leaves the notifications
    as they are. *)
Theorem notifications_spec (getEdgeId : Connection.t → string)
    (applyNodeChanges : list NodeChange.t → list Node.t → list Node.t)
    (applyEdgeChanges : list EdgeChange.t → list Edge.t → list Edge.t)
    (e : Event) (s s' : FlowBuilder) :
  dispatch getEdgeId applyNodeChanges applyEdgeChanges e s = Some s' →
  match e with
  | ConnectEvent params =>
      toasts s' = if sourceHasEdge params (edges s)
                  then toasts s ++ [duplicateWarning] else toasts s
  | SaveEvent => toasts s' = toasts s ++ [validate (nodes s) (edges s)]
  | _ => toasts s' = toasts s
  end.
Proof.
  intros Hd. destruct e; cbn [dispatch] in Hd; try (injection Hd as <-).
  - unfold onConnect. destruct (sourceHasEdge _ _); [done|].
    by destruct (pushHistory_live (nodes s)
         (addEdge (styledEdge getEdgeId params) (edges s))
         (setEdges (addEdge (styledEdge getEdgeId params) (edges s)) s))
      as (_ & _ & _ & ->).
  - unfold onDrop. case_decide; [done|]. destruct reactFlowInstance; [|done].
    set (newNodes := nodes s ++ [_]).
    by destruct (pushHistory_live newNodes (edges s) (setNodes newNodes s))
      as (_ & _ & _ & ->).
  - unfold handleNodesChange. destruct (bool_decide (Exists _ _)); [|done].
    pose proof (pushHistory_live
                  (remainingNodes (removedIds changes) (nodes s))
                  (remainingEdges (removedIds changes) (edges s))
                  (setNodes (applyNodeChanges changes (nodes s)) s))
      as (_ & _ & _ & Ht).
    destruct (selectedNode s) as [sel|]; [destruct (bool_decide _)|]; exact Ht.
  - unfold handleEdgesChange. destruct (bool_decide (Exists _ _)); [|done].
    by destruct (pushHistory_live (nodes s)
         (edgesNotRemoved (removedEdgeIds changes) (edges s))
         (setEdges (applyEdgeChanges changes (edges s)) s))
      as (_ & _ & _ & ->).
  - done.
  - done.
  - by destruct (onTextChange_history newText s) as (_ & _ & _ & -> & _).
  - done.
  - done.
  - destruct (handleKeyDown event s) as [[p sk]|] eqn:Hk; [|done].
    cbn in Hd. injection Hd as <-. by eapply handleKeyDown_toasts.
Qed.

Lemma notifications_spec_witness :
  ∃ s', dispatch sampleEdgeId sampleApply sampleApplyEdges
          (ConnectEvent (Connection.mk "A" None "C" None)) chain = Some s' ∧
        toasts s' = [duplicateWarning].
Proof.
  eexists. split; [reflexivity|].
  apply (notifications_spec sampleEdgeId sampleApply sampleApplyEdges
           (ConnectEvent (Connection.mk "A" None "C" None)) chain).
  reflexivity.
Defined.
